(** * Bayesian neural network layers (src/models/BnnModel.py)

    A shallow embedding of the stochastic linear layer [BnnLayer] and of the
    three networks assembled from it ([BayesianModel], [MLPBayesianModel],
    [DropoutBayesianModel]), together with the properties of their
    construction and forward pass.

    Conventions of the embedding:
    - scalars are an abstract type with the arithmetic the code uses
      (class [Scalar]); the real numbers are an instance, and so are
      rationals with an exponential that underflows as that of the
      floating-point numbers does;
    - a tensor is its list of sizes and its row-major contents;
    - the process-wide random source is an explicit generator state that
      every sampling primitive threads (class [Generator]);
    - a raised Python exception is the [Raise] result of the monad [M];
    - what [nn.Module] records of the attribute assignments of a
      constructor is a tree of named parameters and named children, which
      [named_parameters] walks. *)

From Stdlib Require Import String.
From Stdlib Require Import List ZArith Lia Bool Arith.
From Stdlib Require Import QArith.
From Stdlib Require DecimalString DecimalNat DecimalFacts.
From Stdlib Require Reals Qreals Lra.
Import ListNotations.

Local Open Scope nat_scope.
Local Open Scope list_scope.

(** ** Scalars *)

Class Scalar (A : Type) : Type := {
  sofQ : Q -> A;            (* a numeric literal *)
  sadd : A -> A -> A;
  ssub : A -> A -> A;
  smul : A -> A -> A;
  sdiv : A -> A -> A;
  sexp : A -> A;
  ssqrt : A -> A;
  sltb : A -> A -> bool     (* strict comparison *)
}.

(** ** The random source *)

Class Generator (A G : Type) : Type := {
  randn : G -> A * G;            (* one standard normal draw *)
  bernoulli : A -> G -> bool * G (* one Bernoulli(p) draw *)
}.

(** ** Exceptions and results *)

Inductive exn : Type :=
| ValueError (msg : string)
| RuntimeError (msg : string)
| IndexError (msg : string).

Inductive result (X : Type) : Type :=
| Ok (x : X)
| Raise (e : exn).
Arguments Ok {X} x.
Arguments Raise {X} e.

(** The error taxonomy of the specification, as the Python exceptions that
    realise it.  The library words the message of a refused matrix product
    differently for inputs of one and of several dimensions; the embedding
    keeps one message for both. *)
Definition msg_negative_dimension : string :=
  "Trying to create tensor with negative dimension".
Definition msg_shapes_cannot_be_multiplied : string :=
  "mat1 and mat2 shapes cannot be multiplied".
Definition msg_scale_constraint : string :=
  "Expected parameter scale to satisfy the constraint GreaterThan(lower_bound=0.0)".
Definition msg_fan : string :=
  "Fan in and fan out can not be computed for tensor with fewer than 2 dimensions".
Definition msg_bn_input_dim : string := "expected 2D or 3D input".
Definition msg_bn_batch_size : string :=
  "Expected more than 1 value per channel when training".
Definition msg_bn_channels : string :=
  "running_mean should contain as many elements as the input has channels".
Definition msg_index : string :=
  "index 0 is out of bounds for dimension 0 with size 0".

Definition InvalidDimension : exn := RuntimeError msg_negative_dimension.
Definition DimensionMismatch : exn := RuntimeError msg_shapes_cannot_be_multiplied.
Definition ConfigurationError (msg : string) : exn := ValueError msg.
Definition BatchSizeError : exn := ValueError msg_bn_batch_size.

(** ** The real numbers as scalars, and a counter as random source

    Exact real arithmetic is the reading of the specification ("real-valued"
    tensors).  The generator below hands out the terms of a fixed sequence;
    it makes the model runnable on concrete inputs. *)

#[global] Instance Scalar_R : Scalar Rdefinitions.R := {|
  sofQ := Rdefinitions.Q2R;
  sadd := Rdefinitions.Rplus;
  ssub := Rdefinitions.Rminus;
  smul := Rdefinitions.Rmult;
  sdiv := Rdefinitions.Rdiv;
  sexp := Rtrigo_def.exp;
  ssqrt := R_sqrt.sqrt;
  sltb := fun x y => if RIneq.Rlt_dec x y then true else false
|}.

#[global] Instance Generator_counter : Generator Rdefinitions.R nat := {|
  randn := fun n => (Raxioms.INR n, S n);
  bernoulli := fun _ n => (Nat.even n, S n)
|}.

Section Model.

Context {A G : Type} {scalar : Scalar A} {generator : Generator A G}.

(** ** The state-and-exception monad of the code *)

Definition M (X : Type) : Type := G -> result (X * G).

Definition ret {X} (x : X) : M X := fun g => Ok (x, g).

Definition bind {X Y} (c : M X) (k : X -> M Y) : M Y :=
  fun g => match c g with
           | Ok (x, g') => k x g'
           | Raise e => Raise e
           end.

Definition lift {X} (r : result X) : M X :=
  fun g => match r with
           | Ok x => Ok (x, g)
           | Raise e => Raise e
           end.

Definition raise {X} (e : exn) : M X := fun _ => Raise e.

Notation "x <- c ;; k" := (bind c (fun x => k))
  (at level 61, c at next level, right associativity).
Notation "' pat <- c ;; k" := (bind c (fun x => match x with pat => k end))
  (at level 61, pat pattern, c at next level, right associativity).

(** ** Tensors *)

Record tensor : Type := mkTensor {
  shape : list nat;
  data : list A
}.

Definition numel (s : list nat) : nat := fold_right Nat.mul 1 s.

Definition tensor_wf (t : tensor) : Prop := length (data t) = numel (shape t).

(** The sizes before the last one, and the last one. *)
Fixpoint split_last (s : list nat) : option (list nat * nat) :=
  match s with
  | [] => None
  | [n] => Some ([], n)
  | n :: s' =>
      match split_last s' with
      | Some (lead, k) => Some (n :: lead, k)
      | None => None
      end
  end.


(** [count] consecutive rows of [len] entries each. *)
Fixpoint chunks (count len : nat) (l : list A) : list (list A) :=
  match count with
  | 0 => []
  | S c => firstn len l :: chunks c len (skipn len l)
  end.

Fixpoint map2 {X Y Z} (f : X -> Y -> Z) (xs : list X) (ys : list Y) : list Z :=
  match xs, ys with
  | x :: xs', y :: ys' => f x y :: map2 f xs' ys'
  | _, _ => []
  end.

Definition szero : A := sofQ 0.
Definition sone : A := sofQ 1.

Definition ssum (l : list A) : A := fold_left sadd l szero.

Definition dot (u v : list A) : A := ssum (map2 smul u v).

(** ** Sampling primitives *)

Fixpoint randn_list (n : nat) (g : G) : list A * G :=
  match n with
  | 0 => ([], g)
  | S n' =>
      let (z, g1) := randn g in
      let (zs, g2) := randn_list n' g1 in
      (z :: zs, g2)
  end.

(** [torch.randn(shape)] *)
Definition torch_randn (s : list nat) : M tensor :=
  fun g => let (zs, g') := randn_list (numel s) g in Ok (mkTensor s zs, g').

Fixpoint bernoulli_list (p : A) (n : nat) (g : G) : list bool * G :=
  match n with
  | 0 => ([], g)
  | S n' =>
      let (b, g1) := bernoulli p g in
      let (bs, g2) := bernoulli_list p n' g1 in
      (b :: bs, g2)
  end.

(** ** Tensor construction and initialisation (torch, torch.nn.init) *)

(** [torch.Tensor(n1, ..., nk)]: an uninitialised tensor of the given sizes.  Its
    contents are unspecified; every use below overwrites them before they are
    read, and they are represented by zeros. *)
Definition torch_Tensor (sizes : list Z) : result tensor :=
  if existsb (fun z => (z <? 0)%Z) sizes
  then Raise (RuntimeError msg_negative_dimension)
  else let s := map Z.to_nat sizes in
       Ok (mkTensor s (repeat szero (numel s))).

(** [nn.init.constant_(t, v)] *)
Definition constant_ (t : tensor) (v : A) : tensor :=
  mkTensor (shape t) (map (fun _ => v) (data t)).

(** [nn.init.zeros_(t)] *)
Definition zeros_ (t : tensor) : tensor := constant_ t szero.

(** [t.normal_(mean, std)]: every entry becomes an independent draw. *)
Definition normal_ (t : tensor) (mean std : A) : M tensor :=
  fun g => let (zs, g') := randn_list (length (data t)) g in
           Ok (mkTensor (shape t) (map (fun z => sadd (smul z std) mean) zs), g').

(** [_calculate_fan_in_and_fan_out(t)[0]] *)
Definition calculate_fan_in (t : tensor) : result nat :=
  match shape t with
  | _ :: n_in :: receptive => Ok (n_in * numel receptive)
  | _ => Raise (ValueError msg_fan)
  end.

(** [calculate_gain("relu")] is [math.sqrt(2.0)]. *)
Definition gain_relu : A := ssqrt (sofQ 2).

Definition kaiming_std (fan : nat) : A :=
  sdiv gain_relu (ssqrt (sofQ (inject_Z (Z.of_nat fan)))).

(** [nn.init.kaiming_normal_(t, mode="fan_in", nonlinearity="relu")] *)
Definition kaiming_normal_ (t : tensor) : M tensor :=
  if existsb (Nat.eqb 0) (shape t)
  then ret t   (* "Initializing zero-element tensors is a no-op" *)
  else fan <- lift (calculate_fan_in t) ;;
       normal_ t szero (kaiming_std fan).

(** ** Elementwise operations, distributions and the affine map *)

(** [torch.exp(t)] *)
Definition torch_exp (t : tensor) : tensor :=
  mkTensor (shape t) (map sexp (data t)).

Definition relu (v : A) : A := if sltb szero v then v else szero.

(** [F.relu(t)], also the forward pass of [nn.ReLU()] *)
Definition F_relu (t : tensor) : tensor :=
  mkTensor (shape t) (map relu (data t)).

(** [torch.distributions.Normal(loc, scale)].  The constructor validates its
    arguments (the default of the library): every scale must be positive.
    (Its other check, that every location be a number, always passes on the
    scalars of the embedding, which have no value that is not a number.)
    The two arguments of every use below have the same sizes; broadcasting of
    unequal sizes is outside the model and refused. *)
Record Normal : Type := mkNormal {
  loc : tensor;
  scale : tensor
}.

Definition msg_broadcast : string :=
  "The size of tensor a must match the size of tensor b".

Definition Normal_init (mu sigma : tensor) : result Normal :=
  if list_eq_dec Nat.eq_dec (shape mu) (shape sigma)
  then if forallb (sltb szero) (data sigma)
       then Ok (mkNormal mu sigma)
       else Raise (ValueError msg_scale_constraint)
  else Raise (RuntimeError msg_broadcast).

(** [Normal.rsample()]: [eps = _standard_normal(shape)], then
    [loc + eps * scale]. *)
Definition rsample (d : Normal) : M tensor :=
  eps <- torch_randn (shape (loc d)) ;;
  ret (mkTensor (shape (loc d))
         (map2 sadd (data (loc d)) (map2 smul (data eps) (data (scale d))))).

(** One output row of the affine map: entry [j] is [row . weight_j + bias_j]. *)
Definition affine_row (wrows : list (list A)) (bias : list A) (row : list A)
  : list A :=
  map2 (fun w b => sadd (dot row w) b) wrows bias.

(** [F.linear(x, weight, bias)], that is [x @ weight^T + bias] over the last
    dimension of [x].  [weight] is a matrix of sizes [(n_out, n_in)] and
    [bias] a vector of [n_out] entries; an [x] without a last dimension of
    [n_in] entries is refused. *)
Definition F_linear (x weight bias : tensor) : result tensor :=
  match shape weight, split_last (shape x) with
  | [n_out; n_in], Some (lead, k) =>
      if k =? n_in
      then if list_eq_dec Nat.eq_dec (shape bias) [n_out]
           then Ok (mkTensor (lead ++ [n_out])
                      (flat_map
                         (affine_row (chunks n_out n_in (data weight)) (data bias))
                         (chunks (numel lead) n_in (data x))))
           else Raise (RuntimeError msg_broadcast)
      else Raise DimensionMismatch
  | _, _ => Raise DimensionMismatch
  end.

(** ** BnnLayer *)

Record BnnLayer : Type := mkBnnLayer {
  in_features : Z;
  out_features : Z;
  weight_mu : tensor;
  weight_std : tensor;
  bias_mu : tensor;
  bias_std : tensor
}.

(** [BnnLayer.reset_parameters] *)
Definition BnnLayer_reset_parameters (self : BnnLayer) : M BnnLayer :=
  w_mu <- kaiming_normal_ (weight_mu self) ;;
  let w_std := constant_ (weight_std self) (sofQ (-5)) in
  let b_mu := zeros_ (bias_mu self) in
  let b_std := constant_ (bias_std self) (sofQ (-5)) in
  ret (mkBnnLayer (in_features self) (out_features self) w_mu w_std b_mu b_std).

(** [BnnLayer.__init__] *)
Definition BnnLayer_init (in_features out_features : Z) : M BnnLayer :=
  w_mu <- lift (torch_Tensor [out_features; in_features]) ;;
  w_std <- lift (torch_Tensor [out_features; in_features]) ;;
  b_mu <- lift (torch_Tensor [out_features]) ;;
  b_std <- lift (torch_Tensor [out_features]) ;;
  BnnLayer_reset_parameters
    (mkBnnLayer in_features out_features w_mu w_std b_mu b_std).

(** [BnnLayer.forward] *)
Definition BnnLayer_forward (self : BnnLayer) (x : tensor) : M tensor :=
  dw <- lift (Normal_init (weight_mu self) (torch_exp (weight_std self))) ;;
  weight <- rsample dw ;;
  db <- lift (Normal_init (bias_mu self) (torch_exp (bias_std self))) ;;
  bias <- rsample db ;;
  lift (F_linear x weight bias).

(** ** Batch normalisation (nn.BatchNorm1d) *)

Record BatchNorm1d : Type := mkBatchNorm1d {
  num_features : Z;
  bn_eps : A;
  bn_momentum : A;
  bn_weight : tensor;
  bn_bias : tensor;
  running_mean : tensor;
  running_var : tensor;
  num_batches_tracked : nat;
  bn_training : bool
}.

(** [nn.init.ones_(t)] *)
Definition ones_ (t : tensor) : tensor := constant_ t sone.

(** [nn.BatchNorm1d(n)]: eps 1e-5, momentum 0.1, affine, tracking running
    statistics, in training mode. *)
Definition BatchNorm1d_init (n : Z) : result BatchNorm1d :=
  match torch_Tensor [n] with
  | Ok t =>
      Ok (mkBatchNorm1d n (sofQ (1 # 100000)) (sofQ (1 # 10))
            (ones_ t) (zeros_ t) (zeros_ t) (ones_ t) 0 true)
  | Raise e => Raise e
  end.

(** The channel of the entry at row-major position [k] of an input of sizes
    [(N, C, L)]; an input of sizes [(N, C)] has [L = 1]. *)
Definition channel_of (C L k : nat) : nat := (k / L) mod C.

Definition indexed (xs : list A) : list (nat * A) :=
  combine (seq 0 (length xs)) xs.

Definition channel_values (C L : nat) (xs : list A) (c : nat) : list A :=
  map snd (filter (fun p => channel_of C L (fst p) =? c) (indexed xs)).

Definition scount (n : nat) : A := sofQ (inject_Z (Z.of_nat n)).

Definition mean_of (vals : list A) : A :=
  sdiv (ssum vals) (scount (length vals)).

Definition sq_dev (vals : list A) : A :=
  ssum (map (fun v => smul (ssub v (mean_of vals)) (ssub v (mean_of vals))) vals).

Definition var_biased (vals : list A) : A :=
  sdiv (sq_dev vals) (scount (length vals)).

Definition var_unbiased (vals : list A) : A :=
  sdiv (sq_dev vals) (scount (length vals - 1)).

Definition normalize (C L : nat) (means vars gamma beta : list A) (eps : A)
  (xs : list A) : list A :=
  map (fun p =>
         let c := channel_of C L (fst p) in
         sadd (smul (sdiv (ssub (snd p) (nth c means szero))
                          (ssqrt (sadd (nth c vars szero) eps)))
                    (nth c gamma szero))
              (nth c beta szero))
      (indexed xs).

Definition moving_average (momentum : A) (old new : list A) : list A :=
  map2 (fun r v => sadd (smul (ssub sone momentum) r) (smul momentum v)) old new.

(** The library's result on an input without entries: it returns, before
    any check of the channels, the input multiplied by the first scale and
    shifted by the first shift, and raises when there is no first scale. *)
Definition batch_norm_empty (self self' : BatchNorm1d) (x : tensor)
  : result (tensor * BatchNorm1d) :=
  match data (bn_weight self), data (bn_bias self) with
  | w0 :: _, b0 :: _ =>
      Ok (mkTensor (shape x) (map (fun v => sadd (smul v w0) b0) (data x)),
          self')
  | _, _ => Raise (IndexError msg_index)
  end.

(** [F.batch_norm] on an input of sizes [(N, C, L)].  In training mode the
    batch counter is incremented, a single value per channel is refused, and
    the running statistics are updated from a batch that has entries. *)
Definition batch_norm (self : BatchNorm1d) (x : tensor) (N C L : nat)
  : result (tensor * BatchNorm1d) :=
  if bn_training self
  then
    if N * L =? 1 then Raise BatchSizeError
    else if N * C * L =? 0
    then batch_norm_empty self
           (mkBatchNorm1d (num_features self) (bn_eps self) (bn_momentum self)
              (bn_weight self) (bn_bias self)
              (running_mean self) (running_var self)
              (S (num_batches_tracked self)) true)
           x
    else if negb (C =? length (data (running_mean self)))
    then Raise (RuntimeError msg_bn_channels)
    else
      let vals := map (channel_values C L (data x)) (seq 0 C) in
      let means := map mean_of vals in
      let y := normalize C L means (map var_biased vals)
                 (data (bn_weight self)) (data (bn_bias self))
                 (bn_eps self) (data x) in
      let rm := moving_average (bn_momentum self)
                  (data (running_mean self)) means in
      let rv := moving_average (bn_momentum self)
                  (data (running_var self)) (map var_unbiased vals) in
      Ok (mkTensor (shape x) y,
          mkBatchNorm1d (num_features self) (bn_eps self) (bn_momentum self)
            (bn_weight self) (bn_bias self)
            (mkTensor (shape (running_mean self)) rm)
            (mkTensor (shape (running_var self)) rv)
            (S (num_batches_tracked self)) true)
  else
    if N * C * L =? 0
    then batch_norm_empty self self x
    else if negb (C =? length (data (running_mean self)))
    then Raise (RuntimeError msg_bn_channels)
    else
      Ok (mkTensor (shape x)
            (normalize C L (data (running_mean self)) (data (running_var self))
               (data (bn_weight self)) (data (bn_bias self))
               (bn_eps self) (data x)),
          self).

(** [BatchNorm1d.forward]: the input has two or three dimensions. *)
Definition BatchNorm1d_forward (self : BatchNorm1d) (x : tensor)
  : result (tensor * BatchNorm1d) :=
  match shape x with
  | [N; C] => batch_norm self x N C 1
  | [N; C; L] => batch_norm self x N C L
  | _ => Raise (ValueError msg_bn_input_dim)
  end.

(** ** Dropout (nn.Dropout) *)

(** [F.dropout(x, p, training)] for a probability strictly between 0 and 1:
    a Bernoulli(1 - p) mask, divided by [1 - p], multiplies the input. *)
Definition F_dropout (x : tensor) (p : A) (training : bool) : M tensor :=
  if training
  then fun g =>
         let (keep, g') := bernoulli_list (ssub sone p) (length (data x)) g in
         Ok (mkTensor (shape x)
               (map2 (fun v (b : bool) =>
                        smul v (sdiv (if b then sone else szero) (ssub sone p)))
                     (data x) keep),
             g')
  else ret x.

(** ** Modules *)

#[warnings="-register-all"]
Inductive module : Type :=
| Bnn (l : BnnLayer)
| BatchNorm (bn : BatchNorm1d)
| ReLU
| Dropout (p : A) (training : bool)
| Sequential (ms : list module).

(** Calling a module.  The call returns the output and the module after the
    call (batch normalisation updates its running statistics). *)
Fixpoint module_forward (m : module) (x : tensor) {struct m}
  : M (tensor * module) :=
  match m with
  | Bnn l => y <- BnnLayer_forward l x ;; ret (y, Bnn l)
  | BatchNorm bn =>
      ' (y, bn') <- lift (BatchNorm1d_forward bn x) ;; ret (y, BatchNorm bn')
  | ReLU => ret (F_relu x, ReLU)
  | Dropout p training => y <- F_dropout x p training ;; ret (y, Dropout p training)
  | Sequential ms =>
      ' (y, ms') <-
        (fix go (ms : list module) (x : tensor) {struct ms}
           : M (tensor * list module) :=
           match ms with
           | [] => ret (x, [])
           | m0 :: rest =>
               ' (y, m0') <- module_forward m0 x ;;
               ' (z, rest') <- go rest y ;;
               ret (z, m0' :: rest')
           end) ms x ;;
      ret (y, Sequential ms')
  end.

(** [for layer in layers: x = layer(x)] *)
Fixpoint forward_layers (layers : list module) (x : tensor) {struct layers}
  : M (tensor * list module) :=
  match layers with
  | [] => ret (x, [])
  | layer :: rest =>
      ' (y, layer') <- module_forward layer x ;;
      ' (z, rest') <- forward_layers rest y ;;
      ret (z, layer' :: rest')
  end.

(** *** Registered parameters (nn.Module)

    Every class of the source derives from [nn.Module] and inherits its
    book-keeping: assigning an [nn.Parameter] to an attribute records it in
    the ordered dictionary [_parameters] of the object, assigning a module
    records it in [_modules], and [named_parameters] walks the two. *)

#[warnings="-register-all"]
Inductive nn_Module : Type :=
| mkModule (parameters : list (string * tensor))
           (modules : list (string * nn_Module)).

(** [nn.Module.__init__] *)
Definition nn_Module_init : nn_Module := mkModule [] [].

(** [d[k] = v] on an ordered dictionary: an old key keeps its place, a new
    one goes last. *)
Fixpoint dict_set {V : Type} (k : string) (v : V) (d : list (string * V))
  : list (string * V) :=
  match d with
  | [] => [(k, v)]
  | (k', v') :: rest =>
      if String.eqb k' k then (k, v) :: rest
      else (k', v') :: dict_set k v rest
  end.

(** [del d[k]], where present. *)
Definition dict_del {V : Type} (k : string) (d : list (string * V))
  : list (string * V) :=
  filter (fun kv => negb (String.eqb (fst kv) k)) d.

(** [nn.Module.__setattr__] on a value that is an [nn.Parameter]. *)
Definition setattr_parameter (self : nn_Module) (name : string)
  (value : tensor) : nn_Module :=
  match self with
  | mkModule ps ms => mkModule (dict_set name value ps) (dict_del name ms)
  end.

(** [nn.Module.__setattr__] on a value that is a module. *)
Definition setattr_module (self : nn_Module) (name : string)
  (value : nn_Module) : nn_Module :=
  match self with
  | mkModule ps ms => mkModule (dict_del name ps) (dict_set name value ms)
  end.

(** [str(i)] *)
Definition string_of_nat (n : nat) : string :=
  DecimalString.NilEmpty.string_of_uint (Nat.to_uint n).

(** [for value in values: setattr(self, str(idx), value)], counting from
    [idx]: the constructors of [nn.Sequential] and [nn.ParameterList]. *)
Fixpoint setattr_modules (self : nn_Module) (idx : nat)
  (values : list nn_Module) : nn_Module :=
  match values with
  | [] => self
  | value :: rest =>
      setattr_modules (setattr_module self (string_of_nat idx) value)
        (S idx) rest
  end.

(** [prefix + ("." if prefix else "") + name] *)
Definition join_name (prefix name : string) : string :=
  if String.eqb prefix "" then name else (prefix ++ "." ++ name)%string.

(** [nn.Module.named_parameters(prefix)]: the parameters of the module
    itself, then those of its children in the order of [_modules], each
    under the dotted path of attribute names that leads to it.  (The
    library also skips an object it has met before; the modules and
    parameters of a component are objects of their own, each made by its own
    constructor call.) *)
Fixpoint named_parameters (prefix : string) (self : nn_Module) {struct self}
  : list (string * tensor) :=
  match self with
  | mkModule ps ms =>
      map (fun kv => (join_name prefix (fst kv), snd kv)) ps
      ++ (fix children (ms : list (string * nn_Module)) {struct ms} :=
            match ms with
            | [] => []
            | (name, m) :: rest =>
                named_parameters (join_name prefix name) m ++ children rest
            end) ms
  end.

(** The assignments of [BnnLayer.__init__]:
    [self.weight_mu = nn.Parameter(...)] and the three after it. *)
Definition BnnLayer_module (self : BnnLayer) : nn_Module :=
  let m := nn_Module_init in
  let m := setattr_parameter m "weight_mu" (weight_mu self) in
  let m := setattr_parameter m "weight_std" (weight_std self) in
  let m := setattr_parameter m "bias_mu" (bias_mu self) in
  let m := setattr_parameter m "bias_std" (bias_std self) in
  m.

(** The assignments of [nn.BatchNorm1d.__init__] (with [affine=True]):
    [self.weight = Parameter(...)], [self.bias = Parameter(...)]; the
    running statistics are buffers. *)
Definition BatchNorm1d_module (self : BatchNorm1d) : nn_Module :=
  let m := nn_Module_init in
  let m := setattr_parameter m "weight" (bn_weight self) in
  let m := setattr_parameter m "bias" (bn_bias self) in
  m.

(** A module as [nn.Module] sees it.  [nn.ReLU] and [nn.Dropout] assign no
    parameter and no module; [nn.Sequential] assigns its arguments to
    the attributes ["0"], ["1"], ... *)
Fixpoint module_object (m : module) : nn_Module :=
  match m with
  | Bnn l => BnnLayer_module l
  | BatchNorm bn => BatchNorm1d_module bn
  | ReLU => nn_Module_init
  | Dropout _ _ => nn_Module_init
  | Sequential ms => setattr_modules nn_Module_init 0 (map module_object ms)
  end.

(** [nn.ParameterList(values)] on a list of modules: each value is assigned
    to the attribute [str(idx)] of the new list, which records a module
    among its children. *)
Definition nn_ParameterList (values : list module) : nn_Module :=
  setattr_modules nn_Module_init 0 (map module_object values).

Definition BnnLayer_named_parameters (self : BnnLayer)
  : list (string * tensor) :=
  named_parameters "" (BnnLayer_module self).

Definition module_named_parameters (m : module) : list (string * tensor) :=
  named_parameters "" (module_object m).

(** The stochastic layers a module contains. *)
Fixpoint module_bnn_layers (m : module) : list BnnLayer :=
  match m with
  | Bnn l => [l]
  | Sequential ms => flat_map module_bnn_layers ms
  | _ => []
  end.

(** ** BayesianModel *)

Record BayesianModel : Type := mkBayesianModel {
  layer1 : BnnLayer;
  layer2 : BnnLayer
}.

(** [BayesianModel.__init__] *)
Definition BayesianModel_init (input_size hidden_size output_size : Z)
  : M BayesianModel :=
  l1 <- BnnLayer_init input_size hidden_size ;;
  l2 <- BnnLayer_init hidden_size output_size ;;
  ret (mkBayesianModel l1 l2).

(** [BayesianModel.forward] *)
Definition BayesianModel_forward (self : BayesianModel) (x : tensor)
  : M tensor :=
  h <- BnnLayer_forward (layer1 self) x ;;
  let x1 := F_relu h in
  x2 <- BnnLayer_forward (layer2 self) x1 ;;
  ret x2.

(** The assignments of [BayesianModel.__init__]. *)
Definition BayesianModel_module (self : BayesianModel) : nn_Module :=
  let m := nn_Module_init in
  let m := setattr_module m "layer1" (BnnLayer_module (layer1 self)) in
  let m := setattr_module m "layer2" (BnnLayer_module (layer2 self)) in
  m.

Definition BayesianModel_named_parameters (self : BayesianModel)
  : list (string * tensor) :=
  named_parameters "" (BayesianModel_module self).

(** ** The variable-depth networks *)

Definition msg_mlp : string := "at least need two values to create an mlp".

(** *** DropoutBayesianModel *)

(** [layers] is the [nn.ParameterList] the constructor wraps the stages in;
    the list registers every stage as its child [0], [1], ... *)
Record DropoutBayesianModel : Type := mkDropoutBayesianModel {
  dropout_layers : list module
}.

(** The body of the loop [for i in range(len(num_features) - 1)], over the
    remaining [indices]. *)
Fixpoint DropoutBayesianModel_build (num_features : list Z) (indices : list nat)
  : M (list module) :=
  match indices with
  | [] => ret []
  | i :: rest =>
      layer <-
        (if i <? length num_features - 2
         then
           l <- BnnLayer_init (nth i num_features 0%Z)
                  (nth (i + 1) num_features 0%Z) ;;
           bn <- lift (BatchNorm1d_init (nth (i + 1) num_features 0%Z)) ;;
           ret (Sequential
                  [Bnn l; BatchNorm bn; ReLU; Dropout (sofQ (2 # 10)) true])
         else
           l <- BnnLayer_init (nth i num_features 0%Z)
                  (nth (i + 1) num_features 0%Z) ;;
           ret (Bnn l)) ;;
      layers <- DropoutBayesianModel_build num_features rest ;;
      ret (layer :: layers)
  end.

(** [DropoutBayesianModel.__init__] *)
Definition DropoutBayesianModel_init (args : list Z) : M DropoutBayesianModel :=
  if length args <? 3
  then raise (ValueError msg_mlp)
  else
    let num_features := args in
    layers <- DropoutBayesianModel_build num_features
                (seq 0 (length num_features - 1)) ;;
    ret (mkDropoutBayesianModel layers).

(** [DropoutBayesianModel.forward] *)
Definition DropoutBayesianModel_forward (self : DropoutBayesianModel)
  (x : tensor) : M (tensor * DropoutBayesianModel) :=
  ' (y, layers) <- forward_layers (dropout_layers self) x ;;
  ret (y, mkDropoutBayesianModel layers).

(** The assignment that ends [DropoutBayesianModel.__init__]:
    [self.layers = nn.ParameterList(self.layers)].  (The assignment of the
    plain list before it records nothing.) *)
Definition DropoutBayesianModel_module (self : DropoutBayesianModel)
  : nn_Module :=
  let m := nn_Module_init in
  let m := setattr_module m "layers" (nn_ParameterList (dropout_layers self)) in
  m.

Definition DropoutBayesianModel_named_parameters (self : DropoutBayesianModel)
  : list (string * tensor) :=
  named_parameters "" (DropoutBayesianModel_module self).

(** *** MLPBayesianModel *)

Record MLPBayesianModel : Type := mkMLPBayesianModel {
  mlp_layers : list module
}.

Fixpoint MLPBayesianModel_build (num_features : list Z) (indices : list nat)
  : M (list module) :=
  match indices with
  | [] => ret []
  | i :: rest =>
      layer <-
        (if i <? length num_features - 2
         then
           l <- BnnLayer_init (nth i num_features 0%Z)
                  (nth (i + 1) num_features 0%Z) ;;
           ret (Sequential [Bnn l; ReLU])
         else
           l <- BnnLayer_init (nth i num_features 0%Z)
                  (nth (i + 1) num_features 0%Z) ;;
           ret (Bnn l)) ;;
      layers <- MLPBayesianModel_build num_features rest ;;
      ret (layer :: layers)
  end.

(** [MLPBayesianModel.__init__] *)
Definition MLPBayesianModel_init (args : list Z) : M MLPBayesianModel :=
  if length args <? 3
  then raise (ValueError msg_mlp)
  else
    let num_features := args in
    layers <- MLPBayesianModel_build num_features
                (seq 0 (length num_features - 1)) ;;
    ret (mkMLPBayesianModel layers).

(** [MLPBayesianModel.forward] *)
Definition MLPBayesianModel_forward (self : MLPBayesianModel) (x : tensor)
  : M (tensor * MLPBayesianModel) :=
  ' (y, layers) <- forward_layers (mlp_layers self) x ;;
  ret (y, mkMLPBayesianModel layers).

(** The assignment that ends [MLPBayesianModel.__init__]. *)
Definition MLPBayesianModel_module (self : MLPBayesianModel) : nn_Module :=
  let m := nn_Module_init in
  let m := setattr_module m "layers" (nn_ParameterList (mlp_layers self)) in
  m.

Definition MLPBayesianModel_named_parameters (self : MLPBayesianModel)
  : list (string * tensor) :=
  named_parameters "" (MLPBayesianModel_module self).

(** * Properties *)

(** ** Lists, sizes and the monad *)

Lemma map2_length {X Y Z} (f : X -> Y -> Z) (xs : list X) (ys : list Y) :
  length (map2 f xs ys) = Nat.min (length xs) (length ys).
Proof.
  revert ys; induction xs as [|x xs IH]; intros [|y ys]; simpl; auto.
Qed.

Lemma map2_nth {X Y Z} (f : X -> Y -> Z) (xs : list X) (ys : list Y)
  (k : nat) (dx : X) (dy : Y) (dz : Z) :
  k < length xs -> k < length ys ->
  nth k (map2 f xs ys) dz = f (nth k xs dx) (nth k ys dy).
Proof.
  revert ys k; induction xs as [|x xs IH]; intros [|y ys] [|k]; simpl;
    intros; try lia; auto.
  apply IH; lia.
Qed.

Lemma randn_list_length (n : nat) (g : G) :
  length (fst (randn_list n g)) = n.
Proof.
  revert g; induction n as [|n IH]; intros g; simpl; auto.
  destruct (randn g) as [z g1].
  specialize (IH g1). destruct (randn_list n g1) as [zs g2]. simpl in *.
  now rewrite IH.
Qed.

Lemma randn_list_app (n m : nat) (g : G) :
  randn_list (n + m) g =
  (fst (randn_list n g) ++ fst (randn_list m (snd (randn_list n g))),
   snd (randn_list m (snd (randn_list n g)))).
Proof.
  revert g; induction n as [|n IH]; intros g; simpl.
  - now destruct (randn_list m g).
  - destruct (randn g) as [z g1]. rewrite IH.
    destruct (randn_list n g1) as [zs g2]. simpl.
    now destruct (randn_list m g2).
Qed.


Lemma numel_app (a b : list nat) : numel (a ++ b) = numel a * numel b.
Proof.
  induction a as [|n a IH]; simpl; [lia|]. rewrite IH. lia.
Qed.

Lemma split_last_app (lead : list nat) (k : nat) :
  split_last (lead ++ [k]) = Some (lead, k).
Proof.
  induction lead as [|n lead IH]; simpl; auto.
  rewrite IH. destruct (lead ++ [k]) eqn:E; auto.
  destruct lead; discriminate.
Qed.


Lemma chunks_length (count len : nat) (l : list A) :
  length (chunks count len l) = count.
Proof.
  revert l; induction count as [|c IH]; intros l; simpl; auto.
Qed.

Lemma chunks_nth (count len : nat) (l : list A) (r : nat) :
  r < count ->
  nth r (chunks count len l) [] = firstn len (skipn (r * len) l).
Proof.
  revert l r; induction count as [|c IH]; intros l r Hr; [lia|].
  destruct r as [|r]; simpl; auto.
  rewrite IH by lia. now rewrite skipn_skipn, Nat.add_comm.
Qed.

Lemma flat_map_length_uniform {X Y} (f : X -> list Y) (l : list X) (k : nat) :
  (forall x, In x l -> length (f x) = k) ->
  length (flat_map f l) = length l * k.
Proof.
  induction l as [|x l IH]; simpl; intros Hk; auto.
  rewrite length_app, Hk, IH; auto.
Qed.

Lemma flat_map_nth_uniform {X Y} (f : X -> list Y) (l : list X) (k : nat)
  (dx : X) (dy : Y) (r j : nat) :
  (forall x, In x l -> length (f x) = k) ->
  r < length l -> j < k ->
  nth (r * k + j) (flat_map f l) dy = nth j (f (nth r l dx)) dy.
Proof.
  revert r; induction l as [|x l IH]; simpl; intros r Hk Hr Hj; [lia|].
  destruct r as [|r]; simpl.
  - rewrite app_nth1; auto. rewrite Hk; auto.
  - rewrite app_nth2; rewrite Hk; auto; try lia.
    replace (k + r * k + j - k) with (r * k + j) by lia.
    apply IH; auto; lia.
Qed.

Lemma map_const_repeat {X Y} (v : Y) (u : X) (n : nat) :
  map (fun _ => v) (repeat u n) = repeat v n.
Proof. induction n; simpl; congruence. Qed.

Lemma numel_2 (a b : nat) : numel [a; b] = a * b.
Proof. simpl. lia. Qed.

Lemma numel_1 (a : nat) : numel [a] = a.
Proof. simpl. lia. Qed.

(** ** Construction of a layer *)

(** The invariant of a layer: non-negative feature counts, a weight mean and
    a weight log-scale of sizes [(out_features, in_features)], a bias mean
    and a bias log-scale of [out_features] entries. *)
Definition layer_wf (l : BnnLayer) : Prop :=
  (0 <= in_features l)%Z /\ (0 <= out_features l)%Z /\
  shape (weight_mu l) = [Z.to_nat (out_features l); Z.to_nat (in_features l)] /\
  shape (weight_std l) = [Z.to_nat (out_features l); Z.to_nat (in_features l)] /\
  shape (bias_mu l) = [Z.to_nat (out_features l)] /\
  shape (bias_std l) = [Z.to_nat (out_features l)] /\
  tensor_wf (weight_mu l) /\ tensor_wf (weight_std l) /\
  tensor_wf (bias_mu l) /\ tensor_wf (bias_std l).

(** The weight mean of a new layer and the generator after its
    initialisation: one scaled draw per entry, or nothing at all for a matrix
    without entries. *)
Definition initial_weight_mu (o i : nat) (g : G) : tensor * G :=
  if (0 =? o) || ((0 =? i) || false)
  then (mkTensor [o; i] (repeat szero (numel [o; i])), g)
  else (mkTensor [o; i]
          (map (fun z => sadd (smul z (kaiming_std (i * numel []))) szero)
               (fst (randn_list (numel [o; i]) g))),
        snd (randn_list (numel [o; i]) g)).

Definition initial_layer (n_in n_out : Z) (g : G) : BnnLayer :=
  let o := Z.to_nat n_out in
  let i := Z.to_nat n_in in
  mkBnnLayer n_in n_out
    (fst (initial_weight_mu o i g))
    (mkTensor [o; i] (repeat (sofQ (-5)) (numel [o; i])))
    (mkTensor [o] (repeat szero (numel [o])))
    (mkTensor [o] (repeat (sofQ (-5)) (numel [o]))).

Lemma torch_Tensor_nonneg (sizes : list Z) :
  Forall (fun z => (0 <= z)%Z) sizes ->
  torch_Tensor sizes =
  Ok (mkTensor (map Z.to_nat sizes) (repeat szero (numel (map Z.to_nat sizes)))).
Proof.
  intros Hs. unfold torch_Tensor.
  replace (existsb (fun z => (z <? 0)%Z) sizes) with false; auto.
  symmetry. induction Hs as [|z l Hz _ IH]; simpl; auto.
  rewrite IH. destruct (Z.ltb_spec z 0); auto; lia.
Qed.

Lemma torch_Tensor_negative (sizes : list Z) :
  Exists (fun z => (z < 0)%Z) sizes ->
  torch_Tensor sizes = Raise InvalidDimension.
Proof.
  intros Hs. unfold torch_Tensor.
  replace (existsb (fun z => (z <? 0)%Z) sizes) with true; auto.
  symmetry. apply existsb_exists. apply Exists_exists in Hs.
  destruct Hs as [z [Hin Hz]]. exists z; split; auto. now apply Z.ltb_lt.
Qed.

Lemma BnnLayer_init_nonneg (n_in n_out : Z) (g : G) :
  (0 <= n_in)%Z -> (0 <= n_out)%Z ->
  BnnLayer_init n_in n_out g =
  Ok (initial_layer n_in n_out g,
      snd (initial_weight_mu (Z.to_nat n_out) (Z.to_nat n_in) g)).
Proof.
  intros Hi Ho. unfold BnnLayer_init, bind, lift.
  rewrite (torch_Tensor_nonneg [n_out; n_in]) by (repeat constructor; auto).
  rewrite (torch_Tensor_nonneg [n_out]) by (repeat constructor; auto).
  unfold BnnLayer_reset_parameters, bind, kaiming_normal_, initial_layer,
    initial_weight_mu, zeros_, constant_.
  cbn [shape data weight_mu weight_std bias_mu bias_std in_features
       out_features map existsb].
  rewrite !map_const_repeat.
  destruct ((0 =? Z.to_nat n_out) || ((0 =? Z.to_nat n_in) || false)).
  - reflexivity.
  - unfold bind, lift, calculate_fan_in, normal_, ret.
    cbn [shape data]. rewrite repeat_length.
    destruct (randn_list (numel [Z.to_nat n_out; Z.to_nat n_in]) g)
      as [zs g'].
    reflexivity.
Qed.

Lemma BnnLayer_init_negative (n_in n_out : Z) (g : G) :
  (n_in < 0)%Z \/ (n_out < 0)%Z ->
  BnnLayer_init n_in n_out g = Raise InvalidDimension.
Proof.
  intros Hneg. unfold BnnLayer_init, bind, lift.
  rewrite (torch_Tensor_negative [n_out; n_in]); auto.
  destruct Hneg; [right; left | left]; auto.
Qed.

Lemma initial_layer_wf (n_in n_out : Z) (g : G) :
  (0 <= n_in)%Z -> (0 <= n_out)%Z -> layer_wf (initial_layer n_in n_out g).
Proof.
  intros Hi Ho. unfold layer_wf, initial_layer, initial_weight_mu, tensor_wf.
  cbn [shape data weight_mu weight_std bias_mu bias_std in_features
       out_features].
  destruct ((0 =? Z.to_nat n_out) || ((0 =? Z.to_nat n_in) || false));
    cbn [fst shape data]; rewrite ?repeat_length, ?length_map,
    ?randn_list_length; repeat split; auto.
Qed.

(** ** The forward pass of a layer *)

(** A law of the scalars the statements below rely on: multiplication
    commutes. *)
Hypothesis smul_comm : forall a b : A, smul a b = smul b a.

(** The condition [Normal] validates: every standard deviation of the layer,
    that is every exponentiated log-scale as the scalars compute it, is
    positive.  It is a condition on the layer: an exponential may underflow
    to 0. *)
Definition scales_positive (l : BnnLayer) : Prop :=
  forallb (sltb szero) (data (torch_exp (weight_std l))) = true /\
  forallb (sltb szero) (data (torch_exp (bias_std l))) = true.

(** The noise, the weight and the bias a forward call of [l] draws from the
    generator [g]: first one draw per weight entry, then one per bias
    entry. *)
Definition weight_noise (l : BnnLayer) (g : G) : list A :=
  fst (randn_list (numel (shape (weight_mu l))) g).

Definition after_weight (l : BnnLayer) (g : G) : G :=
  snd (randn_list (numel (shape (weight_mu l))) g).

Definition bias_noise (l : BnnLayer) (g : G) : list A :=
  fst (randn_list (numel (shape (bias_mu l))) (after_weight l g)).

Definition after_forward (l : BnnLayer) (g : G) : G :=
  snd (randn_list (numel (shape (bias_mu l))) (after_weight l g)).

Definition sampled_weight (l : BnnLayer) (g : G) : tensor :=
  mkTensor (shape (weight_mu l))
    (map2 sadd (data (weight_mu l))
       (map2 smul (weight_noise l g) (map sexp (data (weight_std l))))).

Definition sampled_bias (l : BnnLayer) (g : G) : tensor :=
  mkTensor (shape (bias_mu l))
    (map2 sadd (data (bias_mu l))
       (map2 smul (bias_noise l g) (map sexp (data (bias_std l))))).

Lemma Normal_init_exp (mu logs : tensor) :
  shape mu = shape logs ->
  forallb (sltb szero) (data (torch_exp logs)) = true ->
  Normal_init mu (torch_exp logs) = Ok (mkNormal mu (torch_exp logs)).
Proof.
  intros Hs Hp. unfold Normal_init. rewrite Hp.
  unfold torch_exp at 1. cbn [shape].
  destruct (list_eq_dec Nat.eq_dec (shape mu) (shape logs)); [|contradiction].
  reflexivity.
Qed.


Lemma BnnLayer_forward_unfold (l : BnnLayer) (x : tensor) (g : G) :
  layer_wf l ->
  scales_positive l ->
  BnnLayer_forward l x g =
  lift (F_linear x (sampled_weight l g) (sampled_bias l g)) (after_forward l g).
Proof.
  intros (_ & _ & Hwm & Hws & Hbm & Hbs & _) [Pw Pb].
  unfold BnnLayer_forward, bind, lift at 1 2.
  rewrite Normal_init_exp by (congruence || exact Pw).
  unfold rsample, bind, torch_randn, ret. cbn [loc scale shape data torch_exp].
  unfold sampled_weight, sampled_bias, after_forward, bias_noise,
    after_weight, weight_noise.
  destruct (randn_list (numel (shape (weight_mu l))) g) as [zw g1].
  rewrite Normal_init_exp by (congruence || exact Pb).
  cbn [loc scale shape data torch_exp fst snd].
  destruct (randn_list (numel (shape (bias_mu l))) g1) as [zb g2].
  reflexivity.
Qed.


Lemma sampled_weight_wf (l : BnnLayer) (g : G) :
  layer_wf l ->
  shape (sampled_weight l g)
  = [Z.to_nat (out_features l); Z.to_nat (in_features l)] /\
  length (data (sampled_weight l g))
  = Z.to_nat (out_features l) * Z.to_nat (in_features l).
Proof.
  intros (_ & _ & Hwm & Hws & _ & _ & Wm & Ws & _).
  unfold sampled_weight, weight_noise, tensor_wf in *. cbn [shape data].
  split; auto.
  rewrite !map2_length, length_map, randn_list_length, Wm, Ws, Hwm, Hws.
  rewrite numel_2. lia.
Qed.

Lemma sampled_bias_wf (l : BnnLayer) (g : G) :
  layer_wf l ->
  shape (sampled_bias l g) = [Z.to_nat (out_features l)] /\
  length (data (sampled_bias l g)) = Z.to_nat (out_features l).
Proof.
  intros (_ & _ & _ & _ & Hbm & Hbs & _ & _ & Bm & Bs).
  unfold sampled_bias, bias_noise, tensor_wf in *. cbn [shape data].
  split; auto.
  rewrite !map2_length, length_map, randn_list_length, Bm, Bs, Hbm, Hbs.
  rewrite numel_1. lia.
Qed.


(** The row [r] of a matrix of [len] columns stored row-major in [l]. *)
Definition row (len r : nat) (l : list A) : list A :=
  firstn len (skipn (r * len) l).

Lemma affine_row_length (wrows : list (list A)) (bias rw : list A) :
  length wrows = length bias ->
  length (affine_row wrows bias rw) = length bias.
Proof.
  intros E. unfold affine_row. rewrite map2_length. lia.
Qed.

(** The affine map on an input of sizes [lead ++ [n_in]]. *)
Lemma F_linear_ok (x w b : tensor) (lead : list nat) (n_out n_in : nat) :
  shape w = [n_out; n_in] -> shape b = [n_out] ->
  length (data b) = n_out ->
  shape x = lead ++ [n_in] ->
  exists y,
    F_linear x w b = Ok y /\
    shape y = lead ++ [n_out] /\
    tensor_wf y /\
    forall r j, r < numel lead -> j < n_out ->
      nth (r * n_out + j) (data y) szero
      = sadd (dot (row n_in r (data x)) (row n_in j (data w)))
             (nth j (data b) szero).
Proof.
  intros Hw Hb Lb Hx. unfold F_linear.
  rewrite Hw, Hx, split_last_app, Nat.eqb_refl, Hb.
  destruct (list_eq_dec Nat.eq_dec [n_out] [n_out]); [|contradiction].
  eexists; split; [reflexivity|]. cbn [shape data].
  assert (Hlen : forall rw,
             length (affine_row (chunks n_out n_in (data w)) (data b) rw)
             = n_out).
  { intros rw. rewrite affine_row_length; auto.
    now rewrite chunks_length. }
  split; [reflexivity|]. split.
  - unfold tensor_wf. cbn [shape data].
    rewrite (flat_map_length_uniform _ _ n_out) by (intros; apply Hlen).
    rewrite chunks_length, numel_app, numel_1. reflexivity.
  - intros r j Hr Hj.
    rewrite (flat_map_nth_uniform _ _ n_out [] szero r j); auto.
    2: { now rewrite chunks_length. }
    rewrite chunks_nth by auto.
    unfold affine_row.
    rewrite (map2_nth _ _ _ j [] szero szero).
    + rewrite chunks_nth by auto. reflexivity.
    + now rewrite chunks_length.
    + lia.
Qed.



(** Further laws of the scalars: the square of a square root, and the product
    of two quotients. *)
Hypothesis ssqrt_sq :
  forall q : Q, (0 <= q)%Q -> smul (ssqrt (sofQ q)) (ssqrt (sofQ q)) = sofQ q.
Hypothesis sdiv_mul :
  forall a b c d : A, smul (sdiv a b) (sdiv c d) = sdiv (smul a c) (smul b d).



(** C3 (as the code has it).  Constructing a layer raises exactly when a
    feature count is negative, and the exception is then the one of the
    tensor allocation; a zero feature count is accepted.  A layer that is
    constructed satisfies the layer invariant and records the two counts. *)
Theorem BnnLayer_init_raises_iff_negative (n_in n_out : Z) (g : G) :
  match BnnLayer_init n_in n_out g with
  | Ok (l, _) =>
      (0 <= n_in)%Z /\ (0 <= n_out)%Z /\ layer_wf l /\
      in_features l = n_in /\ out_features l = n_out
  | Raise e =>
      e = InvalidDimension /\ ((n_in < 0)%Z \/ (n_out < 0)%Z)
  end.
Proof.
  destruct (Z_lt_le_dec n_in 0) as [Hi|Hi].
  { rewrite BnnLayer_init_negative by auto. split; auto. }
  destruct (Z_lt_le_dec n_out 0) as [Ho|Ho].
  { rewrite BnnLayer_init_negative by auto. split; auto. }
  rewrite BnnLayer_init_nonneg by auto.
  split; [exact Hi|]. split; [exact Ho|].
  split; [now apply initial_layer_wf|]. split; reflexivity.
Qed.

(** ** Freshly constructed layers *)

(** The log-scales of a constructed layer: every entry is -5. *)
Definition fresh_scales (l : BnnLayer) : Prop :=
  Forall (eq (sofQ (-5))) (data (weight_std l)) /\
  Forall (eq (sofQ (-5))) (data (bias_std l)).

(** The one fact about the exponential that the statements about constructed
    networks rely on: the exponential of -5 is positive. *)
Hypothesis exp_m5_pos : sltb szero (sexp (sofQ (-5))) = true.

Lemma fresh_scales_positive (l : BnnLayer) :
  fresh_scales l -> scales_positive l.
Proof.
  assert (Hf : forall t : tensor,
             Forall (eq (sofQ (-5))) (data t) ->
             forallb (sltb szero) (data (torch_exp t)) = true).
  { intros t Ht. unfold torch_exp. cbn [data].
    induction Ht as [|v vs <- _ IH]; cbn [map forallb]; auto.
    now rewrite exp_m5_pos, IH. }
  intros [Fw Fb]. split; apply Hf; assumption.
Qed.

Lemma initial_layer_fresh (n_in n_out : Z) (g : G) :
  fresh_scales (initial_layer n_in n_out g).
Proof.
  unfold fresh_scales, initial_layer. cbn [weight_std bias_std data].
  split; apply Forall_forall; intros v Hv; apply repeat_spec in Hv; auto.
Qed.

(** ** Calling stages *)

Lemma BnnLayer_forward_shape (l : BnnLayer) (x : tensor) (lead : list nat)
  (g : G) :
  layer_wf l ->
  scales_positive l ->
  shape x = lead ++ [Z.to_nat (in_features l)] ->
  exists y,
    BnnLayer_forward l x g = Ok (y, after_forward l g) /\
    shape y = lead ++ [Z.to_nat (out_features l)] /\
    tensor_wf y.
Proof.
  intros Hl Hp Hx.
  destruct (sampled_weight_wf l g Hl) as [Sw Lw].
  destruct (sampled_bias_wf l g Hl) as [Sb Lb].
  destruct (F_linear_ok x (sampled_weight l g) (sampled_bias l g) lead _ _
              Sw Sb Lb Hx) as (y & Ey & Sy & Wy & _).
  exists y. rewrite BnnLayer_forward_unfold by auto. now rewrite Ey.
Qed.


Lemma F_relu_shape (t : tensor) :
  shape (F_relu t) = shape t /\ (tensor_wf t -> tensor_wf (F_relu t)).
Proof.
  unfold F_relu, tensor_wf. cbn [shape data]. now rewrite length_map.
Qed.

Lemma module_forward_Sequential (ms : list module) (x : tensor) (g : G) :
  module_forward (Sequential ms) x g =
  match forward_layers ms x g with
  | Ok ((y, ms'), g') => Ok ((y, Sequential ms'), g')
  | Raise e => Raise e
  end.
Proof.
  cbn [module_forward]. unfold bind at 1.
  match goal with
  | |- match ?f ms x g with _ => _ end = _ =>
      replace (f ms x g) with (forward_layers ms x g)
  end.
  2: reflexivity.
  destruct (forward_layers ms x g) as [[[y ms'] g']|e]; reflexivity.
Qed.

(** A stage made of a layer and a nonlinearity. *)
Lemma forward_layer_relu (l : BnnLayer) (x : tensor) (g : G) :
  module_forward (Sequential [Bnn l; ReLU]) x g =
  match BnnLayer_forward l x g with
  | Ok (h, g') => Ok ((F_relu h, Sequential [Bnn l; ReLU]), g')
  | Raise e => Raise e
  end.
Proof.
  rewrite module_forward_Sequential. cbn [forward_layers module_forward].
  unfold bind, ret.
  destruct (BnnLayer_forward l x g) as [[h g']|e]; reflexivity.
Qed.

Lemma forward_bare_layer (l : BnnLayer) (x : tensor) (g : G) :
  module_forward (Bnn l) x g =
  match BnnLayer_forward l x g with
  | Ok (y, g') => Ok ((y, Bnn l), g')
  | Raise e => Raise e
  end.
Proof.
  cbn [module_forward]. unfold bind, ret.
  destruct (BnnLayer_forward l x g) as [[h g']|e]; reflexivity.
Qed.

(** ** BayesianModel *)

(** C6.  Constructing a [BayesianModel] from positive sizes succeeds and
    builds two layers, [layer1] from [input_size] to [hidden_size] and
    [layer2] from [hidden_size] to [output_size]; its forward pass is
    [layer2(relu(layer1(x)))] and nothing else; on an input of sizes
    [(B, input_size)] it returns an output of sizes [(B, output_size)]. *)
Theorem BayesianModel_two_layers (input_size hidden_size output_size : Z)
  (g : G) :
  (0 < input_size)%Z -> (0 < hidden_size)%Z -> (0 < output_size)%Z ->
  exists m g1,
    BayesianModel_init input_size hidden_size output_size g = Ok (m, g1) /\
    layer_wf (layer1 m) /\
    in_features (layer1 m) = input_size /\
    out_features (layer1 m) = hidden_size /\
    layer_wf (layer2 m) /\
    in_features (layer2 m) = hidden_size /\
    out_features (layer2 m) = output_size /\
    (forall x g',
       BayesianModel_forward m x g' =
       match BnnLayer_forward (layer1 m) x g' with
       | Ok (h, g'') => BnnLayer_forward (layer2 m) (F_relu h) g''
       | Raise e => Raise e
       end) /\
    (forall B x g',
       shape x = [B; Z.to_nat input_size] ->
       exists y g'',
         BayesianModel_forward m x g' = Ok (y, g'') /\
         shape y = [B; Z.to_nat output_size] /\
         tensor_wf y).
Proof.
  intros Hi Hh Ho. unfold BayesianModel_init, bind, ret.
  rewrite BnnLayer_init_nonneg by lia.
  rewrite BnnLayer_init_nonneg by lia.
  eexists; eexists; split; [reflexivity|]. cbn [layer1 layer2].
  set (l1 := initial_layer input_size hidden_size g).
  set (l2 := initial_layer hidden_size output_size _).
  assert (W1 : layer_wf l1) by (apply initial_layer_wf; lia).
  assert (W2 : layer_wf l2) by (apply initial_layer_wf; lia).
  assert (P1 : scales_positive l1)
    by (apply fresh_scales_positive, initial_layer_fresh).
  assert (P2 : scales_positive l2)
    by (apply fresh_scales_positive, initial_layer_fresh).
  assert (Fwd : forall x g',
             BayesianModel_forward (mkBayesianModel l1 l2) x g' =
             match BnnLayer_forward l1 x g' with
             | Ok (h, g'') => BnnLayer_forward l2 (F_relu h) g''
             | Raise e => Raise e
             end).
  { intros x g'. unfold BayesianModel_forward, bind, ret. cbn [layer1 layer2].
    destruct (BnnLayer_forward l1 x g') as [[h g'']|e]; auto.
    destruct (BnnLayer_forward l2 (F_relu h) g'') as [[y g3]|e]; auto. }
  repeat (split; [first [assumption | reflexivity]|]).
  intros B x g' Hx. rewrite Fwd.
  destruct (BnnLayer_forward_shape l1 x [B] g' W1 P1 Hx)
    as (h & E1 & S1 & T1).
  rewrite E1.
  destruct (BnnLayer_forward_shape l2 (F_relu h) [B] (after_forward l1 g')
              W2 P2)
    as (y & E2 & S2 & T2).
  { rewrite (proj1 (F_relu_shape h)). exact S1. }
  exists y, (after_forward l2 (after_forward l1 g')). auto.
Qed.

(** ** The variable-depth networks: construction *)

Definition layer_dims (l : BnnLayer) (n_in n_out : Z) : Prop :=
  layer_wf l /\ in_features l = n_in /\ out_features l = n_out.

(** A batch normalisation as constructed: unit scale, zero shift, running
    mean 0 and running variance 1, in training mode. *)
Definition initial_bn (n : Z) : BatchNorm1d :=
  let t := mkTensor [Z.to_nat n] (repeat szero (numel [Z.to_nat n])) in
  mkBatchNorm1d n (sofQ (1 # 100000)) (sofQ (1 # 10))
    (ones_ t) (zeros_ t) (zeros_ t) (ones_ t) 0 true.

(** The stage the loop builds at index [i] of [num_features]. *)
Definition mlp_stage (num_features : list Z) (i : nat) (l : BnnLayer)
  : module :=
  if i <? length num_features - 2
  then Sequential [Bnn l; ReLU]
  else Bnn l.

Definition dropout_stage (num_features : list Z) (i : nat) (l : BnnLayer)
  : module :=
  if i <? length num_features - 2
  then Sequential [Bnn l;
                   BatchNorm (initial_bn (nth (i + 1) num_features 0%Z));
                   ReLU;
                   Dropout (sofQ (2 # 10)) true]
  else Bnn l.

Definition mlp_stage_at (num_features : list Z) (i : nat) (stage : module)
  : Prop :=
  exists l,
    layer_dims l (nth i num_features 0%Z) (nth (i + 1) num_features 0%Z) /\
    fresh_scales l /\
    stage = mlp_stage num_features i l.

Definition dropout_stage_at (num_features : list Z) (i : nat) (stage : module)
  : Prop :=
  exists l,
    layer_dims l (nth i num_features 0%Z) (nth (i + 1) num_features 0%Z) /\
    fresh_scales l /\
    stage = dropout_stage num_features i l.

Lemma BnnLayer_init_cases (n_in n_out : Z) (g : G) :
  match BnnLayer_init n_in n_out g with
  | Ok (l, _) =>
      (0 <= n_in)%Z /\ (0 <= n_out)%Z /\ layer_dims l n_in n_out /\
      fresh_scales l
  | Raise e => e = InvalidDimension /\ ((n_in < 0)%Z \/ (n_out < 0)%Z)
  end.
Proof.
  destruct (Z_lt_le_dec n_in 0) as [Hi|Hi].
  { rewrite BnnLayer_init_negative by auto. split; auto. }
  destruct (Z_lt_le_dec n_out 0) as [Ho|Ho].
  { rewrite BnnLayer_init_negative by auto. split; auto. }
  rewrite BnnLayer_init_nonneg by auto.
  split; [exact Hi|]. split; [exact Ho|].
  split; [|apply initial_layer_fresh].
  split; [now apply initial_layer_wf|]. split; reflexivity.
Qed.

Lemma BatchNorm1d_init_nonneg (n : Z) :
  (0 <= n)%Z -> BatchNorm1d_init n = Ok (initial_bn n).
Proof.
  intros Hn. unfold BatchNorm1d_init.
  now rewrite (torch_Tensor_nonneg [n]) by (repeat constructor; auto).
Qed.

Lemma nth_nonneg (l : list Z) (i : nat) :
  Forall (fun z => (0 <= z)%Z) l -> (0 <= nth i l 0)%Z.
Proof.
  intros Hl. destruct (Nat.lt_ge_cases i (length l)) as [Hi|Hi].
  - rewrite Forall_forall in Hl. apply Hl. now apply nth_In.
  - rewrite nth_overflow by auto. lia.
Qed.

Lemma MLPBayesianModel_build_ok (num_features : list Z) :
  Forall (fun z => (0 <= z)%Z) num_features ->
  forall (k s : nat) (g : G),
  exists layers g',
    MLPBayesianModel_build num_features (seq s k) g = Ok (layers, g') /\
    Forall2 (mlp_stage_at num_features) (seq s k) layers.
Proof.
  intros Hnf. induction k as [|k IH]; intros s g.
  - exists [], g. split; [reflexivity | constructor].
  - cbn [seq MLPBayesianModel_build]. unfold bind at 1.
    pose proof (nth_nonneg num_features s Hnf) as H0.
    pose proof (nth_nonneg num_features (s + 1) Hnf) as H1.
    assert (E : exists l g1,
               (if s <? length num_features - 2
                then l <- BnnLayer_init (nth s num_features 0%Z)
                            (nth (s + 1) num_features 0%Z) ;;
                     ret (Sequential [Bnn l; ReLU])
                else l <- BnnLayer_init (nth s num_features 0%Z)
                            (nth (s + 1) num_features 0%Z) ;;
                     ret (Bnn l)) g
               = Ok (mlp_stage num_features s l, g1) /\
               layer_dims l (nth s num_features 0%Z)
                 (nth (s + 1) num_features 0%Z) /\
               fresh_scales l).
    { exists (initial_layer (nth s num_features 0%Z)
                (nth (s + 1) num_features 0%Z) g).
      eexists. unfold mlp_stage, bind, ret.
      destruct (s <? length num_features - 2);
        rewrite BnnLayer_init_nonneg by auto;
        (split; [reflexivity|]);
        (split; [|apply initial_layer_fresh]);
        (split; [now apply initial_layer_wf | split; reflexivity]). }
    destruct E as (l & g1 & -> & Hl & Fl). cbn beta iota. unfold bind, ret.
    destruct (IH (S s) g1) as (layers & g' & -> & HF).
    exists (mlp_stage num_features s l :: layers), g'.
    split; [reflexivity|]. constructor; auto. now exists l.
Qed.

Lemma DropoutBayesianModel_build_ok (num_features : list Z) :
  Forall (fun z => (0 <= z)%Z) num_features ->
  forall (k s : nat) (g : G),
  exists layers g',
    DropoutBayesianModel_build num_features (seq s k) g = Ok (layers, g') /\
    Forall2 (dropout_stage_at num_features) (seq s k) layers.
Proof.
  intros Hnf. induction k as [|k IH]; intros s g.
  - exists [], g. split; [reflexivity | constructor].
  - cbn [seq DropoutBayesianModel_build]. unfold bind at 1.
    pose proof (nth_nonneg num_features s Hnf) as H0.
    pose proof (nth_nonneg num_features (s + 1) Hnf) as H1.
    assert (E : exists l g1,
               (if s <? length num_features - 2
                then
                  l <- BnnLayer_init (nth s num_features 0%Z)
                         (nth (s + 1) num_features 0%Z) ;;
                  bn <- lift (BatchNorm1d_init (nth (s + 1) num_features 0%Z)) ;;
                  ret (Sequential
                         [Bnn l; BatchNorm bn; ReLU;
                          Dropout (sofQ (2 # 10)) true])
                else l <- BnnLayer_init (nth s num_features 0%Z)
                            (nth (s + 1) num_features 0%Z) ;;
                     ret (Bnn l)) g
               = Ok (dropout_stage num_features s l, g1) /\
               layer_dims l (nth s num_features 0%Z)
                 (nth (s + 1) num_features 0%Z) /\
               fresh_scales l).
    { exists (initial_layer (nth s num_features 0%Z)
                (nth (s + 1) num_features 0%Z) g).
      eexists. unfold dropout_stage, bind, ret, lift.
      destruct (s <? length num_features - 2);
        rewrite BnnLayer_init_nonneg by auto;
        rewrite ?BatchNorm1d_init_nonneg by auto;
        (split; [reflexivity|]);
        (split; [|apply initial_layer_fresh]);
        (split; [now apply initial_layer_wf | split; reflexivity]). }
    destruct E as (l & g1 & -> & Hl & Fl). cbn beta iota. unfold bind, ret.
    destruct (IH (S s) g1) as (layers & g' & -> & HF).
    exists (dropout_stage num_features s l :: layers), g'.
    split; [reflexivity|]. constructor; auto. now exists l.
Qed.

(** Whatever the sizes, the loop raises nothing but the exception of the
    tensor allocation. *)
Lemma MLPBayesianModel_build_raises (num_features : list Z)
  (indices : list nat) (g : G) :
  match MLPBayesianModel_build num_features indices g with
  | Ok _ => True
  | Raise e => e = InvalidDimension
  end.
Proof.
  revert g. induction indices as [|i rest IH]; intros g;
    cbn [MLPBayesianModel_build]; [exact I|].
  unfold bind, ret.
  pose proof (BnnLayer_init_cases (nth i num_features 0%Z)
                (nth (i + 1) num_features 0%Z) g) as Hc.
  destruct (i <? length num_features - 2);
    (destruct (BnnLayer_init _ _ g) as [[l g1]|e]; [|exact (proj1 Hc)]);
    specialize (IH g1);
    destruct (MLPBayesianModel_build num_features rest g1) as [[ls g2]|e];
    auto.
Qed.

Lemma DropoutBayesianModel_build_raises (num_features : list Z)
  (indices : list nat) (g : G) :
  match DropoutBayesianModel_build num_features indices g with
  | Ok _ => True
  | Raise e => e = InvalidDimension
  end.
Proof.
  revert g. induction indices as [|i rest IH]; intros g;
    cbn [DropoutBayesianModel_build]; [exact I|].
  unfold bind, ret, lift.
  pose proof (BnnLayer_init_cases (nth i num_features 0%Z)
                (nth (i + 1) num_features 0%Z) g) as Hc.
  destruct (i <? length num_features - 2);
    (destruct (BnnLayer_init _ _ g) as [[l g1]|e]; [|exact (proj1 Hc)]);
    try (destruct Hc as (_ & Hn & _);
         rewrite BatchNorm1d_init_nonneg by exact Hn);
    specialize (IH g1);
    destruct (DropoutBayesianModel_build num_features rest g1)
      as [[ls g2]|e]; auto.
Qed.

(** ** The variable-depth networks: forward pass *)




(** *** Batch normalisation and dropout keep the sizes *)






(** A stage of the regularised network: layer, batch normalisation,
    nonlinearity, dropout, in this order. *)
Lemma forward_dropout_block (l : BnnLayer) (bn : BatchNorm1d) (p : A)
  (training : bool) (x : tensor) (g : G) :
  module_forward (Sequential [Bnn l; BatchNorm bn; ReLU; Dropout p training])
    x g =
  match BnnLayer_forward l x g with
  | Ok (h, g1) =>
      match BatchNorm1d_forward bn h with
      | Ok (h2, bn') =>
          match F_dropout (F_relu h2) p training g1 with
          | Ok (y, g2) =>
              Ok ((y, Sequential [Bnn l; BatchNorm bn'; ReLU;
                                  Dropout p training]), g2)
          | Raise e => Raise e
          end
      | Raise e => Raise e
      end
  | Raise e => Raise e
  end.
Proof.
  rewrite module_forward_Sequential. cbn [forward_layers module_forward].
  unfold bind, ret, lift.
  destruct (BnnLayer_forward l x g) as [[h g1]|e]; auto.
  destruct (BatchNorm1d_forward bn h) as [[h2 bn']|e]; auto.
  destruct (F_dropout (F_relu h2) p training g1) as [[y g2]|e]; auto.
Qed.



(** On a batch of at least two rows, a freshly constructed regularised stage
    returns. *)
Lemma initial_bn_channels (n : Z) :
  length (data (running_mean (initial_bn n))) = Z.to_nat n /\
  bn_training (initial_bn n) = true.
Proof.
  unfold initial_bn, zeros_, constant_. cbn [running_mean data bn_training].
  rewrite length_map, repeat_length, numel_1. auto.
Qed.




(** ** The variable-depth networks: what the constructors build *)

Lemma MLPBayesianModel_build_inv (nf : list Z) (indices : list nat) :
  forall (g g' : G) (layers : list module),
    MLPBayesianModel_build nf indices g = Ok (layers, g') ->
    Forall2 (mlp_stage_at nf) indices layers.
Proof.
  induction indices as [|i rest IH]; intros g g' layers;
    cbn [MLPBayesianModel_build].
  - unfold ret. intros E; inversion E; constructor.
  - unfold bind, ret.
    pose proof (BnnLayer_init_cases (nth i nf 0%Z) (nth (i + 1) nf 0%Z) g)
      as Hc.
    assert (Hst : forall l, mlp_stage nf i l =
                            if i <? length nf - 2
                            then Sequential [Bnn l; ReLU] else Bnn l)
      by reflexivity.
    destruct (i <? length nf - 2);
      (destruct (BnnLayer_init _ _ g) as [[l g1]|e]; [|discriminate]);
      (destruct (MLPBayesianModel_build nf rest g1) as [[ls g2]|e] eqn:E2;
       [|discriminate]);
      intros E; inversion E; subst;
      (constructor; [exists l; rewrite Hst; tauto | eapply IH; eauto]).
Qed.

Lemma BatchNorm1d_init_inv (n : Z) (bn : BatchNorm1d) :
  (0 <= n)%Z -> BatchNorm1d_init n = Ok bn -> bn = initial_bn n.
Proof.
  intros Hn. rewrite BatchNorm1d_init_nonneg by auto. congruence.
Qed.

Lemma DropoutBayesianModel_build_inv (nf : list Z) (indices : list nat) :
  forall (g g' : G) (layers : list module),
    DropoutBayesianModel_build nf indices g = Ok (layers, g') ->
    Forall2 (dropout_stage_at nf) indices layers.
Proof.
  induction indices as [|i rest IH]; intros g g' layers;
    cbn [DropoutBayesianModel_build].
  - unfold ret. intros E; inversion E; constructor.
  - unfold bind, ret, lift.
    pose proof (BnnLayer_init_cases (nth i nf 0%Z) (nth (i + 1) nf 0%Z) g)
      as Hc.
    assert (Hst : forall l, dropout_stage nf i l =
                            if i <? length nf - 2
                            then Sequential
                                   [Bnn l;
                                    BatchNorm (initial_bn (nth (i + 1) nf 0%Z));
                                    ReLU; Dropout (sofQ (2 # 10)) true]
                            else Bnn l)
      by reflexivity.
    destruct (i <? length nf - 2);
      (destruct (BnnLayer_init _ _ g) as [[l g1]|e]; [|discriminate]);
      try (destruct Hc as (Hn0 & Hn1 & Hd);
           rewrite BatchNorm1d_init_nonneg by exact Hn1);
      (destruct (DropoutBayesianModel_build nf rest g1) as [[ls g2]|e] eqn:E2;
       [|discriminate]);
      intros E; inversion E; subst;
      (constructor; [exists l; rewrite Hst; tauto | eapply IH; eauto]).
Qed.

Lemma MLPBayesianModel_init_unfold (args : list Z) (g : G) :
  3 <= length args ->
  MLPBayesianModel_init args g =
  match MLPBayesianModel_build args (seq 0 (length args - 1)) g with
  | Ok (layers, g') => Ok (mkMLPBayesianModel layers, g')
  | Raise e => Raise e
  end.
Proof.
  intros Hn. unfold MLPBayesianModel_init.
  destruct (Nat.ltb_spec (length args) 3) as [Hlt|_]; [lia|].
  reflexivity.
Qed.

Lemma DropoutBayesianModel_init_unfold (args : list Z) (g : G) :
  3 <= length args ->
  DropoutBayesianModel_init args g =
  match DropoutBayesianModel_build args (seq 0 (length args - 1)) g with
  | Ok (layers, g') => Ok (mkDropoutBayesianModel layers, g')
  | Raise e => Raise e
  end.
Proof.
  intros Hn. unfold DropoutBayesianModel_init.
  destruct (Nat.ltb_spec (length args) 3) as [Hlt|_]; [lia|].
  reflexivity.
Qed.

Lemma MLPBayesianModel_init_short (args : list Z) (g : G) :
  length args < 3 ->
  MLPBayesianModel_init args g = Raise (ConfigurationError msg_mlp).
Proof.
  intros Hn. unfold MLPBayesianModel_init.
  destruct (Nat.ltb_spec (length args) 3) as [_|Hge]; [reflexivity | lia].
Qed.

Lemma DropoutBayesianModel_init_short (args : list Z) (g : G) :
  length args < 3 ->
  DropoutBayesianModel_init args g = Raise (ConfigurationError msg_mlp).
Proof.
  intros Hn. unfold DropoutBayesianModel_init.
  destruct (Nat.ltb_spec (length args) 3) as [_|Hge]; [reflexivity | lia].
Qed.

(** C4 (as the code has it).  A variable-depth constructor raises the
    configuration error exactly when fewer than three sizes are given, and
    the message it carries reads "at least need two values to create an mlp";
    with three or more sizes none of which is negative, construction
    succeeds. *)
Theorem variable_depth_init_ConfigurationError (args : list Z) (g : G) :
  (length args < 3 <->
   MLPBayesianModel_init args g
   = Raise (ConfigurationError "at least need two values to create an mlp")) /\
  (length args < 3 <->
   DropoutBayesianModel_init args g
   = Raise (ConfigurationError "at least need two values to create an mlp")) /\
  (forall msg,
     MLPBayesianModel_init args g = Raise (ConfigurationError msg) \/
     DropoutBayesianModel_init args g = Raise (ConfigurationError msg) ->
     length args < 3) /\
  (3 <= length args -> Forall (fun z => (0 <= z)%Z) args ->
   (exists m g', MLPBayesianModel_init args g = Ok (m, g')) /\
   (exists m g', DropoutBayesianModel_init args g = Ok (m, g'))).
Proof.
  assert (Hm : forall msg,
             MLPBayesianModel_init args g = Raise (ConfigurationError msg) ->
             length args < 3).
  { intros msg E. destruct (Nat.lt_ge_cases (length args) 3) as [|Hge]; auto.
    rewrite MLPBayesianModel_init_unfold in E by auto.
    pose proof (MLPBayesianModel_build_raises args
                  (seq 0 (length args - 1)) g) as Hr.
    destruct (MLPBayesianModel_build _ _ g) as [[ls g']|e];
      [discriminate|]. subst e. discriminate. }
  assert (Hd : forall msg,
             DropoutBayesianModel_init args g = Raise (ConfigurationError msg) ->
             length args < 3).
  { intros msg E. destruct (Nat.lt_ge_cases (length args) 3) as [|Hge]; auto.
    rewrite DropoutBayesianModel_init_unfold in E by auto.
    pose proof (DropoutBayesianModel_build_raises args
                  (seq 0 (length args - 1)) g) as Hr.
    destruct (DropoutBayesianModel_build _ _ g) as [[ls g']|e];
      [discriminate|]. subst e. discriminate. }
  split; [|split; [|split]].
  - split; [apply MLPBayesianModel_init_short | apply Hm].
  - split; [apply DropoutBayesianModel_init_short | apply Hd].
  - intros msg [E|E]; eauto.
  - intros Hn Hnf. split.
    + rewrite MLPBayesianModel_init_unfold by auto.
      destruct (MLPBayesianModel_build_ok args Hnf (length args - 1) 0 g)
        as (ls & g' & -> & _). eauto.
    + rewrite DropoutBayesianModel_init_unfold by auto.
      destruct (DropoutBayesianModel_build_ok args Hnf (length args - 1) 0 g)
        as (ls & g' & -> & _). eauto.
Qed.

Lemma Forall2_seq_nth_error {X} (P : nat -> X -> Prop) (k : nat) :
  forall (s : nat) (l : list X),
    Forall2 P (seq s k) l ->
    length l = k /\
    forall j, j < k -> exists v, nth_error l j = Some v /\ P (s + j) v.
Proof.
  induction k as [|k IH]; intros s l HF.
  - inversion HF; subst. split; [reflexivity | intros; lia].
  - cbn [seq] in HF. inversion HF as [|i v is' rest Hv HF']; subst.
    destruct (IH (S s) rest HF') as [Hlen Hnth].
    split; [cbn; lia|].
    intros [|j] Hj.
    + exists v. rewrite Nat.add_0_r. auto.
    + destruct (Hnth j) as (w & Ew & Pw); [lia|].
      exists w. rewrite Nat.add_succ_r. auto.
Qed.



(** ** Inputs of the wrong width *)

Lemma BayesianModel_init_inv (a b c : Z) (g g1 : G) (m : BayesianModel) :
  BayesianModel_init a b c g = Ok (m, g1) ->
  (layer_dims (layer1 m) a b /\ fresh_scales (layer1 m)) /\
  (layer_dims (layer2 m) b c /\ fresh_scales (layer2 m)).
Proof.
  unfold BayesianModel_init, bind, ret.
  pose proof (BnnLayer_init_cases a b g) as H1.
  destruct (BnnLayer_init a b g) as [[l1 g2]|e]; [|discriminate].
  pose proof (BnnLayer_init_cases b c g2) as H2.
  destruct (BnnLayer_init b c g2) as [[l2 g3]|e]; [|discriminate].
  intros E; inversion E; subst. cbn [layer1 layer2]. tauto.
Qed.



(** ** The two-layer networks coincide *)

(** C10.  [MLPBayesianModel(a, b, c)] and [BayesianModel(a, b, c)],
    constructed from the same generator state, either both raise the same
    exception or build the same pipeline from the same two layers - a layer
    from [a] to [b], a ReLU, a layer from [b] to [c] - and leave the
    generator in the same state; the two forward passes then return the same
    output (or raise the same exception) on every input and generator state.
    For sizes that are not negative both constructions succeed. *)
Theorem MLPBayesianModel_refines_BayesianModel (a b c : Z) (g : G) :
  match BayesianModel_init a b c g, MLPBayesianModel_init [a; b; c] g with
  | Ok (bm, g1), Ok (mlp, g2) =>
      g1 = g2 /\
      (0 <= a)%Z /\ (0 <= b)%Z /\ (0 <= c)%Z /\
      mlp_layers mlp = [Sequential [Bnn (layer1 bm); ReLU]; Bnn (layer2 bm)] /\
      forall x g',
        MLPBayesianModel_forward mlp x g' =
        match BayesianModel_forward bm x g' with
        | Ok (y, g'') => Ok ((y, mlp), g'')
        | Raise e => Raise e
        end
  | Raise e1, Raise e2 =>
      e1 = e2 /\ ((a < 0)%Z \/ (b < 0)%Z \/ (c < 0)%Z)
  | _, _ => False
  end.
Proof.
  unfold BayesianModel_init, MLPBayesianModel_init.
  cbn [length Nat.ltb Nat.leb Nat.sub seq MLPBayesianModel_build nth Nat.add].
  unfold bind, ret.
  pose proof (BnnLayer_init_cases a b g) as H1.
  destruct (BnnLayer_init a b g) as [[l1 g1]|e1].
  2: { destruct H1 as [_ [?|?]]; split; auto. }
  pose proof (BnnLayer_init_cases b c g1) as H2.
  destruct (BnnLayer_init b c g1) as [[l2 g2]|e2].
  2: { destruct H2 as [_ [?|?]]; split; auto. }
  cbn [layer1 layer2 mlp_layers].
  repeat (split; [first [reflexivity | tauto]|]).
  intros x g'.
  unfold MLPBayesianModel_forward, BayesianModel_forward, bind, ret.
  cbn [mlp_layers layer1 layer2 forward_layers]. unfold bind, ret.
  rewrite forward_layer_relu.
  destruct (BnnLayer_forward l1 x g') as [[h g3]|e]; auto.
  rewrite forward_bare_layer.
  destruct (BnnLayer_forward l2 (F_relu h) g3) as [[y g4]|e]; auto.
Qed.

(** ** The learnable parameters *)

(** The four learnable tensors of a layer. *)
Definition layer_tensors (l : BnnLayer) : list tensor :=
  [weight_mu l; weight_std l; bias_mu l; bias_std l].

(** The batch normalisations a module contains. *)
Fixpoint module_batch_norms (m : module) : list BatchNorm1d :=
  match m with
  | BatchNorm bn => [bn]
  | Sequential ms => flat_map module_batch_norms ms
  | _ => []
  end.

Lemma module_ind_nested (P : module -> Prop) :
  (forall l, P (Bnn l)) ->
  (forall bn, P (BatchNorm bn)) ->
  P ReLU ->
  (forall p t, P (Dropout p t)) ->
  (forall ms, Forall P ms -> P (Sequential ms)) ->
  forall m, P m.
Proof.
  intros HB HN HR HD HS.
  fix IH 1. intros m. destruct m as [l|bn| |p t|ms].
  - apply HB.
  - apply HN.
  - exact HR.
  - apply HD.
  - apply HS. induction ms as [|m ms IHms]; constructor;
      [apply IH | exact IHms].
Qed.

(** *** Names *)

Lemma append_assoc (a b c : string) :
  ((a ++ b) ++ c)%string = (a ++ (b ++ c))%string.
Proof. induction a as [|x a IH]; cbn; [reflexivity | now rewrite IH]. Qed.

Lemma append_inj_l (p a b : string) :
  (p ++ a)%string = (p ++ b)%string -> a = b.
Proof.
  induction p as [|x p IH]; cbn; [auto|].
  intros E. inversion E. auto.
Qed.

Lemma append_nonempty (p q : string) :
  p <> ""%string -> (p ++ q)%string <> ""%string.
Proof. destruct p; [contradiction | discriminate]. Qed.

(** No character of the string is the separator of a path. *)
Fixpoint no_dot (s : string) : bool :=
  match s with
  | EmptyString => true
  | String c s' => negb (String.eqb (String c EmptyString) ".") && no_dot s'
  end.

Lemma no_dot_split (d1 d2 r1 r2 : string) :
  no_dot d1 = true -> no_dot d2 = true ->
  (d1 ++ "." ++ r1)%string = (d2 ++ "." ++ r2)%string ->
  d1 = d2 /\ r1 = r2.
Proof.
  revert d2. induction d1 as [|c d1 IH]; intros [|c' d2]; cbn;
    intros H1 H2 E.
  - inversion E. auto.
  - inversion E; subst. discriminate.
  - inversion E; subst. discriminate.
  - inversion E; subst.
    apply andb_true_iff in H1, H2.
    destruct (IH d2 (proj2 H1) (proj2 H2) ltac:(assumption)) as [-> ->].
    auto.
Qed.

Lemma string_of_nat_no_dot (n : nat) : no_dot (string_of_nat n) = true.
Proof.
  unfold string_of_nat.
  induction (Nat.to_uint n) as [|d IH|d IH|d IH|d IH|d IH|d IH|d IH|d IH
                                |d IH|d IH]; cbn; auto.
Qed.

Lemma string_of_nat_inj (i j : nat) :
  string_of_nat i = string_of_nat j -> i = j.
Proof.
  unfold string_of_nat. intros E.
  apply (f_equal DecimalString.NilEmpty.uint_of_string) in E.
  rewrite !DecimalString.NilEmpty.usu in E. inversion E.
  now apply DecimalNat.Unsigned.to_uint_inj.
Qed.

Lemma string_of_nat_nonempty (n : nat) : string_of_nat n <> ""%string.
Proof.
  unfold string_of_nat. intros E.
  assert (Hn : Nat.to_uint n = Decimal.Nil).
  { destruct (Nat.to_uint n); try discriminate; reflexivity. }
  apply (DecimalFacts.unorm_nonnil (Nat.to_uint n)).
  rewrite <- DecimalNat.Unsigned.to_of, DecimalNat.Unsigned.of_to.
  exact Hn.
Qed.

Lemma join_name_top (name : string) : join_name "" name = name.
Proof. reflexivity. Qed.

Lemma join_name_under (p name : string) :
  p <> ""%string -> join_name p name = (p ++ "." ++ name)%string.
Proof.
  intros Hp. unfold join_name.
  destruct (String.eqb_spec p ""); [contradiction | reflexivity].
Qed.

(** *** Dictionaries and enumerated children *)

Lemma dict_set_fresh {V : Type} (k : string) (v : V)
  (d : list (string * V)) :
  (forall kv, In kv d -> fst kv <> k) ->
  dict_set k v d = d ++ [(k, v)].
Proof.
  induction d as [|[k' v'] d IH]; intros Hf; cbn; [reflexivity|].
  destruct (String.eqb_spec k' k) as [E|_].
  - exfalso. apply (Hf (k', v')); [now left | exact E].
  - rewrite IH; [reflexivity|]. intros kv Hin. apply Hf. now right.
Qed.

(** The children of a container: its values under [str(i)], [str(i+1)],
    ... *)
Fixpoint enumerated (i : nat) (values : list nn_Module)
  : list (string * nn_Module) :=
  match values with
  | [] => []
  | value :: rest => (string_of_nat i, value) :: enumerated (S i) rest
  end.

Lemma setattr_modules_from (values : list nn_Module) :
  forall (idx : nat) (d : list (string * nn_Module)),
    (forall kv, In kv d -> exists j, j < idx /\ fst kv = string_of_nat j) ->
    setattr_modules (mkModule [] d) idx values
    = mkModule [] (d ++ enumerated idx values).
Proof.
  induction values as [|v rest IH]; intros idx d Hd;
    cbn [setattr_modules enumerated].
  - now rewrite app_nil_r.
  - cbn [setattr_module dict_del filter].
    rewrite dict_set_fresh.
    + rewrite IH.
      * now rewrite <- app_assoc.
      * intros kv Hin. apply in_app_or in Hin.
        destruct Hin as [Hin|[<-|[]]].
        -- destruct (Hd kv Hin) as (j & Hj & E). exists j. split; [lia|auto].
        -- exists idx. split; [lia | reflexivity].
    + intros kv Hin E. destruct (Hd kv Hin) as (j & Hj & Ej).
      rewrite Ej in E. apply string_of_nat_inj in E. lia.
Qed.

Lemma setattr_modules_enumerated (values : list nn_Module) :
  setattr_modules nn_Module_init 0 values
  = mkModule [] (enumerated 0 values).
Proof.
  unfold nn_Module_init.
  rewrite setattr_modules_from; [reflexivity|]. intros kv [].
Qed.

(** *** The listing of a module tree *)

(** The names [ps] under the path [p]. *)
Definition prefixed (p : string) (ps : list (string * tensor))
  : list (string * tensor) :=
  map (fun nt => ((p ++ "." ++ fst nt)%string, snd nt)) ps.

(** The parameters of the children [i], [i+1], ... of a container. *)
Fixpoint children_named_parameters (i : nat) (ms : list module)
  : list (string * tensor) :=
  match ms with
  | [] => []
  | m0 :: rest =>
      prefixed (string_of_nat i) (module_named_parameters m0)
        ++ children_named_parameters (S i) rest
  end.

Fixpoint named_parameters_children (prefix : string)
  (ms : list (string * nn_Module)) : list (string * tensor) :=
  match ms with
  | [] => []
  | (name, m) :: rest =>
      named_parameters (join_name prefix name) m
        ++ named_parameters_children prefix rest
  end.

Lemma named_parameters_unfold (prefix : string)
  (ps : list (string * tensor)) (ms : list (string * nn_Module)) :
  named_parameters prefix (mkModule ps ms)
  = map (fun kv => (join_name prefix (fst kv), snd kv)) ps
      ++ named_parameters_children prefix ms.
Proof.
  cbn [named_parameters]. f_equal.
  induction ms as [|[name m] rest IH]; [reflexivity|].
  cbn [named_parameters_children]. now rewrite IH.
Qed.

Lemma prefixed_app (p : string) (a b : list (string * tensor)) :
  prefixed p (a ++ b) = prefixed p a ++ prefixed p b.
Proof. apply map_app. Qed.

Lemma prefixed_prefixed (p q : string) (ps : list (string * tensor)) :
  prefixed p (prefixed q ps) = prefixed (p ++ "." ++ q) ps.
Proof.
  unfold prefixed. rewrite map_map. apply map_ext. intros [n t].
  cbn [fst snd]. f_equal. rewrite !append_assoc. reflexivity.
Qed.

Lemma prefixed_length (p : string) (ps : list (string * tensor)) :
  length (prefixed p ps) = length ps.
Proof. unfold prefixed. apply length_map. Qed.

Lemma prefixed_snd (p : string) (ps : list (string * tensor)) :
  map snd (prefixed p ps) = map snd ps.
Proof.
  unfold prefixed. rewrite map_map. reflexivity.
Qed.

Lemma module_named_parameters_Bnn (l : BnnLayer) :
  module_named_parameters (Bnn l)
  = [("weight_mu"%string, weight_mu l); ("weight_std"%string, weight_std l);
     ("bias_mu"%string, bias_mu l); ("bias_std"%string, bias_std l)].
Proof. reflexivity. Qed.

Lemma module_named_parameters_BatchNorm (bn : BatchNorm1d) :
  module_named_parameters (BatchNorm bn)
  = [("weight"%string, bn_weight bn); ("bias"%string, bn_bias bn)].
Proof. reflexivity. Qed.

Lemma enumerated_under (ms : list module) :
  Forall (fun m => forall p, p <> ""%string ->
                   named_parameters p (module_object m)
                   = prefixed p (module_named_parameters m)) ms ->
  forall (i : nat) (p : string),
    p <> ""%string ->
    named_parameters_children p (enumerated i (map module_object ms))
    = prefixed p (children_named_parameters i ms).
Proof.
  induction 1 as [|m ms Hm _ IH]; intros i p Hp; [reflexivity|].
  cbn [map enumerated named_parameters_children children_named_parameters].
  rewrite prefixed_app, prefixed_prefixed, IH by exact Hp.
  rewrite join_name_under by exact Hp.
  rewrite Hm by (now apply append_nonempty). reflexivity.
Qed.

Lemma enumerated_top (ms : list module) :
  Forall (fun m => forall p, p <> ""%string ->
                   named_parameters p (module_object m)
                   = prefixed p (module_named_parameters m)) ms ->
  forall i : nat,
    named_parameters_children "" (enumerated i (map module_object ms))
    = children_named_parameters i ms.
Proof.
  induction 1 as [|m ms Hm _ IH]; intros i; [reflexivity|].
  cbn [map enumerated named_parameters_children children_named_parameters].
  rewrite IH, join_name_top, Hm by apply string_of_nat_nonempty.
  reflexivity.
Qed.

(** Under a path, a module lists what it lists at the top, each name behind
    the path. *)
Lemma named_parameters_under (m : module) :
  forall p, p <> ""%string ->
            named_parameters p (module_object m)
            = prefixed p (module_named_parameters m).
Proof.
  induction m as [l|bn| |q t|ms IH] using module_ind_nested; intros p Hp.
  - unfold module_named_parameters. cbn.
    rewrite !join_name_under by exact Hp. reflexivity.
  - unfold module_named_parameters. cbn.
    rewrite !join_name_under by exact Hp. reflexivity.
  - reflexivity.
  - reflexivity.
  - unfold module_named_parameters. cbn [module_object].
    rewrite setattr_modules_enumerated, !named_parameters_unfold.
    cbn [map app].
    rewrite enumerated_under, enumerated_top by assumption. reflexivity.
Qed.

Lemma module_named_parameters_Sequential (ms : list module) :
  module_named_parameters (Sequential ms) = children_named_parameters 0 ms.
Proof.
  unfold module_named_parameters at 1. cbn [module_object].
  rewrite setattr_modules_enumerated, named_parameters_unfold.
  cbn [map app]. apply enumerated_top.
  apply Forall_forall. intros m _. apply named_parameters_under.
Qed.

Lemma nn_ParameterList_named_parameters (ms : list module) :
  named_parameters "layers" (nn_ParameterList ms)
  = prefixed "layers" (children_named_parameters 0 ms).
Proof.
  unfold nn_ParameterList.
  rewrite setattr_modules_enumerated, named_parameters_unfold.
  cbn [map app]. apply enumerated_under; [|discriminate].
  apply Forall_forall. intros m _. apply named_parameters_under.
Qed.

Lemma MLPBayesianModel_named_parameters_eq (m : MLPBayesianModel) :
  MLPBayesianModel_named_parameters m
  = prefixed "layers" (children_named_parameters 0 (mlp_layers m)).
Proof.
  unfold MLPBayesianModel_named_parameters, MLPBayesianModel_module.
  cbn [nn_Module_init setattr_module dict_del dict_set filter].
  rewrite named_parameters_unfold.
  cbn [map app named_parameters_children]. rewrite join_name_top.
  rewrite nn_ParameterList_named_parameters. apply app_nil_r.
Qed.

Lemma DropoutBayesianModel_named_parameters_eq (m : DropoutBayesianModel) :
  DropoutBayesianModel_named_parameters m
  = prefixed "layers" (children_named_parameters 0 (dropout_layers m)).
Proof.
  unfold DropoutBayesianModel_named_parameters, DropoutBayesianModel_module.
  cbn [nn_Module_init setattr_module dict_del dict_set filter].
  rewrite named_parameters_unfold.
  cbn [map app named_parameters_children]. rewrite join_name_top.
  rewrite nn_ParameterList_named_parameters. apply app_nil_r.
Qed.

(** *** No two parameters share a name *)

Lemma prefixed_names (p : string) (ps : list (string * tensor)) :
  map fst (prefixed p ps)
  = map (fun n => (p ++ "." ++ n)%string) (map fst ps).
Proof. unfold prefixed. rewrite !map_map. reflexivity. Qed.

Lemma prefixed_NoDup (p : string) (ps : list (string * tensor)) :
  NoDup (map fst ps) -> NoDup (map fst (prefixed p ps)).
Proof.
  rewrite prefixed_names.
  induction (map fst ps) as [|n ns IH]; intros Hn; cbn [map];
    [constructor|].
  inversion Hn as [|? ? Hnot Hrest]; subst. constructor; [|auto].
  intros Hin. apply in_map_iff in Hin. destruct Hin as (n' & E & Hin').
  apply append_inj_l in E. inversion E; subst. contradiction.
Qed.

Lemma children_names_from (ms : list module) :
  forall (i : nat) (n : string),
    In n (map fst (children_named_parameters i ms)) ->
    exists j r, i <= j /\ n = (string_of_nat j ++ "." ++ r)%string.
Proof.
  induction ms as [|m ms IH]; intros i n; cbn [children_named_parameters];
    [intros []|].
  rewrite map_app, in_app_iff, prefixed_names, in_map_iff.
  intros [(r & <- & _)|Hin].
  - exists i, r. auto.
  - destruct (IH (S i) n Hin) as (j & r & Hj & E).
    exists j, r. split; [lia | exact E].
Qed.

Lemma children_NoDup (ms : list module) :
  Forall (fun m => NoDup (map fst (module_named_parameters m))) ms ->
  forall i, NoDup (map fst (children_named_parameters i ms)).
Proof.
  induction 1 as [|m ms Hm _ IH]; intros i; cbn [children_named_parameters];
    [constructor|].
  rewrite map_app. apply NoDup_app.
  - now apply prefixed_NoDup.
  - apply IH.
  - intros n Hhere Hthere.
    rewrite prefixed_names, in_map_iff in Hhere.
    destruct Hhere as (r & <- & _).
    apply children_names_from in Hthere.
    destruct Hthere as (j & r' & Hj & E).
    apply no_dot_split in E; try apply string_of_nat_no_dot.
    destruct E as [E _]. apply string_of_nat_inj in E. lia.
Qed.

(** The names a module lists are pairwise distinct. *)
Lemma module_names_NoDup (m : module) :
  NoDup (map fst (module_named_parameters m)).
Proof.
  induction m as [l|bn| |q t|ms IH] using module_ind_nested.
  - rewrite module_named_parameters_Bnn. cbn [map fst].
    repeat constructor; cbn [In]; intuition discriminate.
  - rewrite module_named_parameters_BatchNorm. cbn [map fst].
    repeat constructor; cbn [In]; intuition discriminate.
  - constructor.
  - constructor.
  - rewrite module_named_parameters_Sequential. now apply children_NoDup.
Qed.

Lemma layers_names_NoDup (ms : list module) :
  NoDup (map fst (prefixed "layers" (children_named_parameters 0 ms))).
Proof.
  apply prefixed_NoDup, children_NoDup, Forall_forall.
  intros m _. apply module_names_NoDup.
Qed.

(** *** The listing of a constructed network, written out *)

(** The four entries of a layer found under the path [p], and the two of a
    batch normalisation. *)
Definition layer_entries (p : string) (l : BnnLayer)
  : list (string * tensor) :=
  [((p ++ ".weight_mu")%string, weight_mu l);
   ((p ++ ".weight_std")%string, weight_std l);
   ((p ++ ".bias_mu")%string, bias_mu l);
   ((p ++ ".bias_std")%string, bias_std l)].

Definition bn_entries (p : string) (bn : BatchNorm1d)
  : list (string * tensor) :=
  [((p ++ ".weight")%string, bn_weight bn);
   ((p ++ ".bias")%string, bn_bias bn)].

(** The entries of the layers [ls] of an [MLPBayesianModel], the first of
    them in stage [i]: the last layer is a stage of its own, found at
    [layers.i]; every other is the member 0 of its stage, found at
    [layers.i.0]. *)
Fixpoint mlp_entries (i : nat) (ls : list BnnLayer)
  : list (string * tensor) :=
  match ls with
  | [] => []
  | l :: rest =>
      match rest with
      | [] => layer_entries ("layers." ++ string_of_nat i) l
      | _ :: _ =>
          layer_entries ("layers." ++ string_of_nat i ++ ".0") l
            ++ mlp_entries (S i) rest
      end
  end.

(** The same for a [DropoutBayesianModel] with the batch normalisations
    [bns]: that of stage [i] is its member 1, found at [layers.i.1]. *)
Fixpoint dropout_entries (i : nat) (ls : list BnnLayer)
  (bns : list BatchNorm1d) : list (string * tensor) :=
  match ls with
  | [] => []
  | l :: rest =>
      match rest, bns with
      | [], _ => layer_entries ("layers." ++ string_of_nat i) l
      | _ :: _, bn :: bns' =>
          layer_entries ("layers." ++ string_of_nat i ++ ".0") l
            ++ bn_entries ("layers." ++ string_of_nat i ++ ".1") bn
            ++ dropout_entries (S i) rest bns'
      | _ :: _, [] => []
      end
  end.

(** The layer of stage [i] maps [sizes[i]] features to [sizes[i+1]]; the
    batch normalisation of stage [i] is the one constructed for
    [sizes[i+1]] channels. *)
Definition layer_at (nf : list Z) (i : nat) (l : BnnLayer) : Prop :=
  layer_dims l (nth i nf 0%Z) (nth (i + 1) nf 0%Z).

Definition bn_at (nf : list Z) (i : nat) (bn : BatchNorm1d) : Prop :=
  bn = initial_bn (nth (S i) nf 0%Z).

Lemma bare_stage_entries (i : nat) (l : BnnLayer) :
  prefixed "layers" (prefixed (string_of_nat i)
                       (module_named_parameters (Bnn l)))
  = layer_entries ("layers." ++ string_of_nat i) l.
Proof.
  rewrite module_named_parameters_Bnn.
  unfold prefixed, layer_entries. cbn [map fst snd].
  rewrite !append_assoc. reflexivity.
Qed.

Lemma mlp_stage_entries (i : nat) (l : BnnLayer) :
  prefixed "layers" (prefixed (string_of_nat i)
                       (module_named_parameters (Sequential [Bnn l; ReLU])))
  = layer_entries ("layers." ++ string_of_nat i ++ ".0") l.
Proof.
  change (module_named_parameters (Sequential [Bnn l; ReLU]))
    with [("0.weight_mu"%string, weight_mu l);
          ("0.weight_std"%string, weight_std l);
          ("0.bias_mu"%string, bias_mu l);
          ("0.bias_std"%string, bias_std l)].
  unfold prefixed, layer_entries. cbn [map fst snd].
  rewrite !append_assoc. reflexivity.
Qed.

Lemma dropout_stage_entries (i : nat) (l : BnnLayer) (bn : BatchNorm1d)
  (p : A) (t : bool) :
  prefixed "layers"
    (prefixed (string_of_nat i)
       (module_named_parameters
          (Sequential [Bnn l; BatchNorm bn; ReLU; Dropout p t])))
  = layer_entries ("layers." ++ string_of_nat i ++ ".0") l
      ++ bn_entries ("layers." ++ string_of_nat i ++ ".1") bn.
Proof.
  change (module_named_parameters
            (Sequential [Bnn l; BatchNorm bn; ReLU; Dropout p t]))
    with [("0.weight_mu"%string, weight_mu l);
          ("0.weight_std"%string, weight_std l);
          ("0.bias_mu"%string, bias_mu l);
          ("0.bias_std"%string, bias_std l);
          ("1.weight"%string, bn_weight bn);
          ("1.bias"%string, bn_bias bn)].
  unfold prefixed, layer_entries, bn_entries. cbn [map fst snd app].
  rewrite !append_assoc. reflexivity.
Qed.

Lemma mlp_children_entries (nf : list Z) (k : nat) :
  forall (s : nat) (layers : list module),
    s + k = length nf - 1 ->
    Forall2 (mlp_stage_at nf) (seq s k) layers ->
    Forall2 (layer_at nf) (seq s k) (flat_map module_bnn_layers layers) /\
    prefixed "layers" (children_named_parameters s layers)
    = mlp_entries s (flat_map module_bnn_layers layers).
Proof.
  induction k as [|k IH]; intros s layers Hs HF.
  - inversion HF; subst. split; [constructor | reflexivity].
  - cbn [seq] in HF. inversion HF as [|i st is' rest Hst HF']; subst.
    destruct Hst as (l & Hd & _ & ->).
    destruct (IH (S s) rest ltac:(lia) HF') as (Hls & Hrest).
    cbn [children_named_parameters flat_map seq].
    rewrite prefixed_app, Hrest. unfold mlp_stage.
    destruct (Nat.ltb_spec s (length nf - 2)) as [Hlt|Hge].
    + cbn [module_bnn_layers flat_map app].
      rewrite mlp_stage_entries.
      pose proof (Forall2_length Hls) as Hlen. rewrite length_seq in Hlen.
      destruct (flat_map module_bnn_layers rest) as [|l2 r] eqn:Er;
        [cbn in Hlen; lia|].
      split; [constructor; assumption | reflexivity].
    + destruct k as [|k]; [|lia]. inversion HF'; subst rest.
      cbn [module_bnn_layers flat_map app children_named_parameters
             mlp_entries].
      rewrite bare_stage_entries, app_nil_r.
      split; [constructor; [assumption | constructor] | reflexivity].
Qed.

Lemma dropout_children_entries (nf : list Z) (k : nat) :
  forall (s : nat) (layers : list module),
    s + k = length nf - 1 ->
    Forall2 (dropout_stage_at nf) (seq s k) layers ->
    Forall2 (layer_at nf) (seq s k) (flat_map module_bnn_layers layers) /\
    Forall2 (bn_at nf) (seq s (k - 1))
      (flat_map module_batch_norms layers) /\
    prefixed "layers" (children_named_parameters s layers)
    = dropout_entries s (flat_map module_bnn_layers layers)
        (flat_map module_batch_norms layers).
Proof.
  induction k as [|k IH]; intros s layers Hs HF.
  - inversion HF; subst. repeat split; constructor.
  - cbn [seq] in HF. inversion HF as [|i st is' rest Hst HF']; subst.
    destruct Hst as (l & Hd & _ & ->).
    destruct (IH (S s) rest ltac:(lia) HF') as (Hls & Hbn & Hrest).
    cbn [children_named_parameters flat_map seq].
    rewrite prefixed_app, Hrest. unfold dropout_stage.
    destruct (Nat.ltb_spec s (length nf - 2)) as [Hlt|Hge].
    + cbn [module_bnn_layers module_batch_norms flat_map app].
      rewrite dropout_stage_entries.
      pose proof (Forall2_length Hls) as Hlen. rewrite length_seq in Hlen.
      destruct (flat_map module_bnn_layers rest) as [|l2 r] eqn:Er;
        [cbn in Hlen; lia|].
      split; [constructor; assumption|].
      split.
      * destruct k as [|k]; [cbn in Hlen; lia|].
        replace (S (S k) - 1) with (S k) by lia.
        replace (S k - 1) with k in Hbn by lia.
        cbn [seq]. constructor; [|exact Hbn].
        unfold bn_at. now rewrite Nat.add_1_r.
      * cbn [dropout_entries]. now rewrite <- app_assoc.
    + destruct k as [|k]; [|lia]. inversion HF'; subst rest.
      cbn [module_bnn_layers module_batch_norms flat_map app
             children_named_parameters dropout_entries].
      rewrite bare_stage_entries, app_nil_r.
      split; [constructor; [assumption | constructor]|].
      split; [constructor | reflexivity].
Qed.

Lemma mlp_entries_snd (ls : list BnnLayer) :
  forall i, map snd (mlp_entries i ls) = flat_map layer_tensors ls.
Proof.
  induction ls as [|l [|l2 r] IH]; intros i; [reflexivity | reflexivity |].
  change (mlp_entries i (l :: l2 :: r))
    with (layer_entries ("layers." ++ string_of_nat i ++ ".0") l
            ++ mlp_entries (S i) (l2 :: r)).
  rewrite map_app, IH. reflexivity.
Qed.

Lemma dropout_entries_snd (ls : list BnnLayer) :
  forall (i : nat) (bns : list BatchNorm1d) (t : tensor),
    length ls = S (length bns) ->
    In t (map snd (dropout_entries i ls bns)) <->
    (exists l, In l ls /\ In t (layer_tensors l)) \/
    (exists bn, In bn bns /\ (t = bn_weight bn \/ t = bn_bias bn)).
Proof.
  induction ls as [|l [|l2 r] IH]; intros i bns t Hlen.
  - discriminate.
  - destruct bns; [|discriminate].
    cbn [dropout_entries layer_entries map snd]. split.
    + intros Hin. left. exists l. split; [now left | exact Hin].
    + intros [(l' & [<-|[]] & Hin)|(bn & [] & _)]. exact Hin.
  - destruct bns as [|bn bns']; [discriminate|].
    change (dropout_entries i (l :: l2 :: r) (bn :: bns'))
      with (layer_entries ("layers." ++ string_of_nat i ++ ".0") l
              ++ bn_entries ("layers." ++ string_of_nat i ++ ".1") bn
              ++ dropout_entries (S i) (l2 :: r) bns').
    rewrite !map_app, !in_app_iff.
    rewrite (IH (S i) bns' t) by (cbn [length] in *; lia).
    change (map snd (layer_entries ("layers." ++ string_of_nat i ++ ".0") l))
      with (layer_tensors l).
    change (map snd (bn_entries ("layers." ++ string_of_nat i ++ ".1") bn))
      with [bn_weight bn; bn_bias bn].
    split.
    + intros [Hin|[Hin|[(l' & Hl' & Hin)|(bn' & Hb' & Hin)]]].
      * left. exists l. split; [now left | exact Hin].
      * right. exists bn. split; [now left|].
        destruct Hin as [<-|[<-|[]]]; auto.
      * left. exists l'. split; [now right | exact Hin].
      * right. exists bn'. split; [now right | exact Hin].
    + intros [(l' & [<-|Hl'] & Hin)|(bn' & [<-|Hb'] & Hin)].
      * now left.
      * right. right. left. exists l'. auto.
      * right. left. destruct Hin as [->| ->]; cbn; auto.
      * right. right. right. exists bn'. auto.
Qed.

(** C9.  What a constructed component exposes for an optimizer to register
    is the result of [named_parameters()] on what the constructor has
    assigned.  A constructed layer lists its two means and its two
    log-scales, of the sizes the constructor was given; a [BayesianModel]
    those of [layer1] and of [layer2]; a variable-depth network of [N] sizes
    those of its [N - 1] layers, stage by stage, and a
    [DropoutBayesianModel] also the scale and the shift of each of its
    [N - 2] batch normalisations.  Layer [i] of a variable-depth network is
    the layer from [sizes[i]] to [sizes[i+1]].  The tensors listed are
    exactly those, and no two of them share a name. *)
Theorem named_parameters_of_constructed (g : G) :
  (forall (n_in n_out : Z) (l : BnnLayer) (g' : G),
     BnnLayer_init n_in n_out g = Ok (l, g') ->
     BnnLayer_named_parameters l
     = [("weight_mu"%string, weight_mu l); ("weight_std"%string, weight_std l);
        ("bias_mu"%string, bias_mu l); ("bias_std"%string, bias_std l)] /\
     map (fun nt => shape (snd nt)) (BnnLayer_named_parameters l)
     = [[Z.to_nat n_out; Z.to_nat n_in]; [Z.to_nat n_out; Z.to_nat n_in];
        [Z.to_nat n_out]; [Z.to_nat n_out]]) /\
  (forall (a b c : Z) (m : BayesianModel) (g' : G),
     BayesianModel_init a b c g = Ok (m, g') ->
     BayesianModel_named_parameters m
     = layer_entries "layer1" (layer1 m) ++ layer_entries "layer2" (layer2 m) /\
     map snd (BayesianModel_named_parameters m)
     = layer_tensors (layer1 m) ++ layer_tensors (layer2 m) /\
     layer_dims (layer1 m) a b /\ layer_dims (layer2 m) b c /\
     NoDup (map fst (BayesianModel_named_parameters m))) /\
  (forall (sizes : list Z) (m : MLPBayesianModel) (g' : G),
     MLPBayesianModel_init sizes g = Ok (m, g') ->
     let ls := flat_map module_bnn_layers (mlp_layers m) in
     Forall2 (layer_at sizes) (seq 0 (length sizes - 1)) ls /\
     MLPBayesianModel_named_parameters m = mlp_entries 0 ls /\
     map snd (MLPBayesianModel_named_parameters m)
     = flat_map layer_tensors ls /\
     NoDup (map fst (MLPBayesianModel_named_parameters m))) /\
  (forall (sizes : list Z) (m : DropoutBayesianModel) (g' : G),
     DropoutBayesianModel_init sizes g = Ok (m, g') ->
     let ls := flat_map module_bnn_layers (dropout_layers m) in
     let bns := flat_map module_batch_norms (dropout_layers m) in
     Forall2 (layer_at sizes) (seq 0 (length sizes - 1)) ls /\
     Forall2 (bn_at sizes) (seq 0 (length sizes - 2)) bns /\
     DropoutBayesianModel_named_parameters m = dropout_entries 0 ls bns /\
     (forall t,
        In t (map snd (DropoutBayesianModel_named_parameters m)) <->
        (exists l, In l ls /\ In t (layer_tensors l)) \/
        (exists bn, In bn bns /\ (t = bn_weight bn \/ t = bn_bias bn))) /\
     NoDup (map fst (DropoutBayesianModel_named_parameters m))).
Proof.
  split; [|split; [|split]].
  - intros n_in n_out l g' El.
    pose proof (BnnLayer_init_cases n_in n_out g) as Hc. rewrite El in Hc.
    destruct Hc as (_ & _ & (Hwf & <- & <-) & _).
    destruct Hwf as (_ & _ & Swm & Sws & Sbm & Sbs & _).
    split; [reflexivity|].
    change (map (fun nt => shape (snd nt)) (BnnLayer_named_parameters l))
      with [shape (weight_mu l); shape (weight_std l);
            shape (bias_mu l); shape (bias_std l)].
    now rewrite Swm, Sws, Sbm, Sbs.
  - intros a b c m g' Em.
    destruct (BayesianModel_init_inv a b c g g' m Em) as [[D1 _] [D2 _]].
    split; [reflexivity|]. split; [reflexivity|].
    split; [exact D1|]. split; [exact D2|].
    change (map fst (BayesianModel_named_parameters m))
      with ["layer1.weight_mu"; "layer1.weight_std"; "layer1.bias_mu";
            "layer1.bias_std"; "layer2.weight_mu"; "layer2.weight_std";
            "layer2.bias_mu"; "layer2.bias_std"]%string.
    repeat constructor; cbn [In]; intuition discriminate.
  - intros sizes m g' Em ls.
    destruct (Nat.lt_ge_cases (length sizes) 3) as [Hlt|Hge].
    { rewrite MLPBayesianModel_init_short in Em by auto. discriminate. }
    rewrite MLPBayesianModel_init_unfold in Em by auto.
    destruct (MLPBayesianModel_build sizes _ g) as [[layers g2]|e] eqn:Eb;
      [|discriminate].
    inversion Em; subst. apply MLPBayesianModel_build_inv in Eb.
    destruct (mlp_children_entries sizes (length sizes - 1) 0 layers
                eq_refl Eb) as (Hls & Hent).
    rewrite MLPBayesianModel_named_parameters_eq.
    cbn [mlp_layers] in *. fold ls in Hls, Hent.
    split; [exact Hls|]. split; [exact Hent|].
    split; [rewrite Hent; apply mlp_entries_snd|].
    apply layers_names_NoDup.
  - intros sizes m g' Em ls bns.
    destruct (Nat.lt_ge_cases (length sizes) 3) as [Hlt|Hge].
    { rewrite DropoutBayesianModel_init_short in Em by auto. discriminate. }
    rewrite DropoutBayesianModel_init_unfold in Em by auto.
    destruct (DropoutBayesianModel_build sizes _ g)
      as [[layers g2]|e] eqn:Eb; [|discriminate].
    inversion Em; subst. apply DropoutBayesianModel_build_inv in Eb.
    destruct (dropout_children_entries sizes (length sizes - 1) 0 layers
                eq_refl Eb) as (Hls & Hbn & Hent).
    rewrite DropoutBayesianModel_named_parameters_eq.
    cbn [dropout_layers] in *. fold ls in Hls, Hent. fold bns in Hbn, Hent.
    replace (length sizes - 1 - 1) with (length sizes - 2) in Hbn by lia.
    split; [exact Hls|]. split; [exact Hbn|]. split; [exact Hent|].
    split; [|apply layers_names_NoDup].
    intros t. rewrite Hent. apply dropout_entries_snd.
    apply Forall2_length in Hls, Hbn. rewrite length_seq in Hls, Hbn. lia.
Qed.


(** * Further properties of the code *)

(** ** Re-initialisation *)

Lemma map_const_length {X Y} (v : Y) (l : list X) :
  map (fun _ => v) l = repeat v (length l).
Proof. induction l; simpl; congruence. Qed.

Lemma tensor_eta (t : tensor) : t = mkTensor (shape t) (data t).
Proof. now destruct t. Qed.

(** X1.  [reset_parameters] forgets the parameters a layer holds: on a layer
    with the layer invariant it returns what constructing a layer of the same
    feature counts returns from the same generator state, weight mean drawn
    anew, log-scales back at -5 and bias mean back at 0. *)
Theorem BnnLayer_reset_parameters_reinitialises (l : BnnLayer) (g : G) :
  layer_wf l ->
  BnnLayer_reset_parameters l g
  = BnnLayer_init (in_features l) (out_features l) g.
Proof.
  intros (Hi & Ho & Hwm & Hws & Hbm & Hbs & Wm & Ws & Bm & Bs).
  rewrite BnnLayer_init_nonneg by auto.
  unfold tensor_wf in *.
  unfold BnnLayer_reset_parameters, bind, kaiming_normal_, initial_layer,
    initial_weight_mu, zeros_, constant_, ret.
  rewrite !map_const_length, Ws, Bm, Bs, Hwm, Hws, Hbm, Hbs.
  cbn [existsb].
  destruct ((0 =? Z.to_nat (out_features l))
            || ((0 =? Z.to_nat (in_features l)) || false)) eqn:Ez.
  - cbn [fst snd]. rewrite (tensor_eta (weight_mu l)), Hwm.
    rewrite Hwm in Wm.
    assert (Hz : numel [Z.to_nat (out_features l); Z.to_nat (in_features l)]
                 = 0).
    { rewrite numel_2. rewrite orb_false_r in Ez.
      apply orb_true_iff in Ez. destruct Ez as [E|E];
        apply Nat.eqb_eq in E; rewrite <- E; lia. }
    rewrite Hz in *. apply length_zero_iff_nil in Wm. rewrite Wm.
    now destruct l.
  - unfold bind, lift, calculate_fan_in, normal_. rewrite Hwm, Wm, Hwm.
    destruct (randn_list (numel [Z.to_nat (out_features l);
                                 Z.to_nat (in_features l)]) g) as [zs g'].
    cbn [fst snd]. now destruct l.
Qed.

(** ** When construction succeeds *)

Lemma stages_sizes_nonneg (P : list Z -> nat -> module -> Prop) (nf : list Z)
  (layers : list module) :
  (forall i st, P nf i st ->
                (0 <= nth i nf 0)%Z /\ (0 <= nth (i + 1) nf 0)%Z) ->
  2 <= length nf ->
  Forall2 (P nf) (seq 0 (length nf - 1)) layers ->
  Forall (fun z => (0 <= z)%Z) nf.
Proof.
  intros HP Hn HF.
  destruct (Forall2_seq_nth_error _ _ _ _ HF) as [_ Hnth].
  apply Forall_forall. intros z Hz.
  destruct (In_nth nf z 0%Z Hz) as (j & Hj & <-).
  destruct (Nat.eq_dec j 0) as [->|Hj0].
  - destruct (Hnth 0) as (st & _ & Hst); [lia|]. now apply HP in Hst.
  - destruct (Hnth (j - 1)) as (st & _ & Hst); [lia|].
    apply HP in Hst. cbn [Nat.add] in Hst.
    replace (j - 1 + 1) with j in Hst by lia. tauto.
Qed.

(** X2.  Construction succeeds exactly on sizes that can be allocated: a
    [BayesianModel] exactly when none of its three sizes is negative, a
    variable-depth network exactly when it is given at least three sizes none
    of which is negative; every size given is used, so a single negative one
    anywhere makes the construction raise. *)
Theorem init_succeeds_iff (g : G) :
  (forall a b c : Z,
     (exists m g', BayesianModel_init a b c g = Ok (m, g')) <->
     (0 <= a)%Z /\ (0 <= b)%Z /\ (0 <= c)%Z) /\
  (forall sizes : list Z,
     (exists m g', MLPBayesianModel_init sizes g = Ok (m, g')) <->
     3 <= length sizes /\ Forall (fun z => (0 <= z)%Z) sizes) /\
  (forall sizes : list Z,
     (exists m g', DropoutBayesianModel_init sizes g = Ok (m, g')) <->
     3 <= length sizes /\ Forall (fun z => (0 <= z)%Z) sizes).
Proof.
  split; [|split].
  - intros a b c. split.
    + intros (m & g' & E). unfold BayesianModel_init, bind, ret in E.
      pose proof (BnnLayer_init_cases a b g) as H1.
      destruct (BnnLayer_init a b g) as [[l1 g1]|e]; [|discriminate].
      pose proof (BnnLayer_init_cases b c g1) as H2.
      destruct (BnnLayer_init b c g1) as [[l2 g2]|e]; [|discriminate].
      tauto.
    + intros (Ha & Hb & Hc). unfold BayesianModel_init, bind, ret.
      rewrite !BnnLayer_init_nonneg by auto. eauto.
  - intros sizes. split.
    + intros (m & g' & E).
      destruct (Nat.lt_ge_cases (length sizes) 3) as [Hlt|Hge].
      { rewrite MLPBayesianModel_init_short in E by auto. discriminate. }
      split; [exact Hge|].
      rewrite MLPBayesianModel_init_unfold in E by auto.
      destruct (MLPBayesianModel_build sizes _ g) as [[ls g1]|e] eqn:Eb;
        [|discriminate].
      apply MLPBayesianModel_build_inv in Eb.
      apply (stages_sizes_nonneg mlp_stage_at sizes ls); auto; [|lia].
      intros i st (l & (Wl & Il & Ol) & _).
      destruct Wl as (Hi & Ho & _). rewrite Il in Hi. rewrite Ol in Ho. auto.
    + intros (Hn & Hnf).
      rewrite MLPBayesianModel_init_unfold by auto.
      destruct (MLPBayesianModel_build_ok sizes Hnf (length sizes - 1) 0 g)
        as (ls & g' & -> & _). eauto.
  - intros sizes. split.
    + intros (m & g' & E).
      destruct (Nat.lt_ge_cases (length sizes) 3) as [Hlt|Hge].
      { rewrite DropoutBayesianModel_init_short in E by auto. discriminate. }
      split; [exact Hge|].
      rewrite DropoutBayesianModel_init_unfold in E by auto.
      destruct (DropoutBayesianModel_build sizes _ g) as [[ls g1]|e] eqn:Eb;
        [|discriminate].
      apply DropoutBayesianModel_build_inv in Eb.
      apply (stages_sizes_nonneg dropout_stage_at sizes ls); auto; [|lia].
      intros i st (l & (Wl & Il & Ol) & _).
      destruct Wl as (Hi & Ho & _). rewrite Il in Hi. rewrite Ol in Ho. auto.
    + intros (Hn & Hnf).
      rewrite DropoutBayesianModel_init_unfold by auto.
      destruct (DropoutBayesianModel_build_ok sizes Hnf (length sizes - 1) 0 g)
        as (ls & g' & -> & _). eauto.
Qed.

(** ** When the forward pass returns *)




(** ** The inputs the regularised network refuses *)

Lemma DropoutBayesianModel_first_stage (sizes : list Z) (g0 g1 : G)
  (m : DropoutBayesianModel) :
  DropoutBayesianModel_init sizes g0 = Ok (m, g1) ->
  exists l rest,
    layer_dims l (nth 0 sizes 0%Z) (nth 1 sizes 0%Z) /\
    fresh_scales l /\
    dropout_layers m
    = Sequential [Bnn l; BatchNorm (initial_bn (nth 1 sizes 0%Z)); ReLU;
                  Dropout (sofQ (2 # 10)) true] :: rest.
Proof.
  intros Em.
  destruct (Nat.lt_ge_cases (length sizes) 3) as [Hlt|Hge].
  { rewrite DropoutBayesianModel_init_short in Em by auto. discriminate. }
  rewrite DropoutBayesianModel_init_unfold in Em by auto.
  destruct (DropoutBayesianModel_build sizes _ g0) as [[ls g2]|e] eqn:Eb;
    [|discriminate].
  inversion Em; subst. apply DropoutBayesianModel_build_inv in Eb.
  replace (length sizes - 1) with (S (length sizes - 2)) in Eb by lia.
  cbn [seq] in Eb. inversion Eb as [|i st is' rest Hst _]; subst.
  destruct Hst as (l & Hl & Fl & ->). exists l, rest. split; [exact Hl|].
  split; [exact Fl|].
  cbn [dropout_layers]. unfold dropout_stage. cbn [Nat.add].
  destruct (Nat.ltb_spec 0 (length sizes - 2)); [reflexivity | lia].
Qed.

(** X4.  A constructed [DropoutBayesianModel] (which is in training mode)
    refuses inputs the plain network accepts: a batch of a single row raises
    the batch-size error of the batch normalisation, an input of one
    dimension raises its input-dimension error, and an input of three
    dimensions [(B, L, sizes[0])] that has rows, whose middle size is not the
    first hidden size, raises its channel error. *)
Theorem DropoutBayesianModel_forward_refused (sizes : list Z) (g0 g1 : G)
  (m : DropoutBayesianModel) (x : tensor) (g : G) :
  DropoutBayesianModel_init sizes g0 = Ok (m, g1) ->
  (shape x = [1; Z.to_nat (nth 0 sizes 0%Z)] ->
   DropoutBayesianModel_forward m x g = Raise BatchSizeError) /\
  (shape x = [Z.to_nat (nth 0 sizes 0%Z)] ->
   DropoutBayesianModel_forward m x g = Raise (ValueError msg_bn_input_dim)) /\
  (forall B L,
     shape x = [B; L; Z.to_nat (nth 0 sizes 0%Z)] ->
     0 < B -> 0 < L -> (0 < nth 1 sizes 0)%Z ->
     B * Z.to_nat (nth 1 sizes 0%Z) <> 1 ->
     L <> Z.to_nat (nth 1 sizes 0%Z) ->
     DropoutBayesianModel_forward m x g
     = Raise (RuntimeError msg_bn_channels)).
Proof.
  intros Em.
  destruct (DropoutBayesianModel_first_stage sizes g0 g1 m Em)
    as (l & rest & (Wl & Il & Ol) & Fl & El).
  assert (Hfw : forall lead,
             shape x = lead ++ [Z.to_nat (nth 0 sizes 0%Z)] ->
             exists h,
               shape h = lead ++ [Z.to_nat (nth 1 sizes 0%Z)] /\
               DropoutBayesianModel_forward m x g =
               match BatchNorm1d_forward (initial_bn (nth 1 sizes 0%Z)) h with
               | Ok _ => DropoutBayesianModel_forward m x g
               | Raise e => Raise e
               end).
  { intros lead Hx. rewrite <- Il in Hx.
    destruct (BnnLayer_forward_shape l x lead g Wl
                (fresh_scales_positive l Fl) Hx) as (h & E & Sh & _).
    rewrite Ol in Sh. exists h. split; [exact Sh|].
    destruct (BatchNorm1d_forward _ h) as [[h2 bn']|e] eqn:Ebn; auto.
    unfold DropoutBayesianModel_forward, bind. rewrite El.
    cbn [forward_layers]. unfold bind.
    now rewrite forward_dropout_block, E, Ebn. }
  destruct (initial_bn_channels (nth 1 sizes 0%Z)) as [Hc Ht].
  split; [|split].
  - intros Hx. destruct (Hfw [1] Hx) as (h & Sh & ->).
    unfold BatchNorm1d_forward, batch_norm. rewrite Sh, Ht. reflexivity.
  - intros Hx. destruct (Hfw [] Hx) as (h & Sh & ->).
    unfold BatchNorm1d_forward. rewrite Sh. reflexivity.
  - intros B L Hx HB0 HL0 Hs1 HB HL. destruct (Hfw [B; L] Hx) as (h & Sh & ->).
    unfold BatchNorm1d_forward, batch_norm. rewrite Sh, Ht, Hc. cbn [app].
    destruct (Nat.eqb_spec (B * Z.to_nat (nth 1 sizes 0%Z)) 1); [lia|].
    destruct (Nat.eqb_spec (B * L * Z.to_nat (nth 1 sizes 0%Z)) 0); [nia|].
    destruct (Nat.eqb_spec L (Z.to_nat (nth 1 sizes 0%Z))); [lia|].
    reflexivity.
Qed.

(** ** What a forward pass of the regularised network changes and keeps *)











Lemma children_named_parameters_ext (a b : list module) :
  Forall2 (fun s t => module_named_parameters s = module_named_parameters t)
    a b ->
  forall i, children_named_parameters i a = children_named_parameters i b.
Proof.
  induction 1 as [|s t a b Hst _ IH]; intros i; cbn; auto.
  now rewrite Hst, IH.
Qed.




(** ** The noise of successive calls *)



(** ** The two variable-depth networks hold the same layers *)

Lemma builds_agree (nf : list Z) (indices : list nat) :
  forall g : G,
    match MLPBayesianModel_build nf indices g,
          DropoutBayesianModel_build nf indices g with
    | Ok (a, g1), Ok (b, g2) =>
        g1 = g2 /\ length a = length b /\
        flat_map module_bnn_layers a = flat_map module_bnn_layers b
    | Raise e1, Raise e2 => e1 = e2
    | _, _ => False
    end.
Proof.
  induction indices as [|i rest IH]; intros g;
    cbn [MLPBayesianModel_build DropoutBayesianModel_build].
  - unfold ret. auto.
  - unfold bind, ret, lift.
    pose proof (BnnLayer_init_cases (nth i nf 0%Z) (nth (i + 1) nf 0%Z) g)
      as Hc.
    destruct (i <? length nf - 2);
      (destruct (BnnLayer_init _ _ g) as [[l g1]|e]; [|reflexivity]);
      try (destruct Hc as (_ & Hn & _);
           rewrite BatchNorm1d_init_nonneg by exact Hn);
      specialize (IH g1);
      destruct (MLPBayesianModel_build nf rest g1) as [[a ga]|ea];
      destruct (DropoutBayesianModel_build nf rest g1) as [[b gb]|eb];
      try contradiction; auto;
      destruct IH as (Eg & El & Eb); cbn; rewrite ?app_nil_r, El, Eb; auto.
Qed.

(** X7.  From the same sizes and the same generator state the two
    variable-depth constructors fail alike or build networks with the same
    number of stages and the very same stochastic layers, in the same order
    and with the same initial parameters, and leave the generator in the same
    state: the batch normalisations and dropouts of the regularised network
    draw nothing when they are constructed. *)
Theorem variable_depth_inits_agree (sizes : list Z) (g : G) :
  match MLPBayesianModel_init sizes g, DropoutBayesianModel_init sizes g with
  | Ok (m, g1), Ok (d, g2) =>
      g1 = g2 /\
      length (mlp_layers m) = length (dropout_layers d) /\
      flat_map module_bnn_layers (mlp_layers m)
      = flat_map module_bnn_layers (dropout_layers d)
  | Raise e1, Raise e2 => e1 = e2
  | _, _ => False
  end.
Proof.
  unfold MLPBayesianModel_init, DropoutBayesianModel_init.
  destruct (length sizes <? 3); [reflexivity|].
  unfold bind, ret.
  pose proof (builds_agree sizes (seq 0 (length sizes - 1)) g) as Hb.
  destruct (MLPBayesianModel_build sizes _ g) as [[a ga]|ea];
    destruct (DropoutBayesianModel_build sizes _ g) as [[b gb]|eb];
    auto.
Qed.

(** ** An input without rows *)


(** ** One weight sample serves the whole batch *)



(** ** Draws and parameters of a constructed network *)

Lemma initial_weight_mu_draws (o i : nat) (g : G) :
  snd (initial_weight_mu o i g) = snd (randn_list (o * i) g).
Proof.
  unfold initial_weight_mu. rewrite numel_2.
  destruct ((0 =? o) || ((0 =? i) || false)) eqn:Ez; [|reflexivity].
  rewrite orb_false_r in Ez. apply orb_true_iff in Ez.
  replace (o * i) with 0; [reflexivity|].
  destruct Ez as [E|E]; apply Nat.eqb_eq in E; rewrite <- E; lia.
Qed.

(** The weight entries of the layer from [sizes[i]] to [sizes[i+1]]. *)
Definition weight_entries (nf : list Z) (i : nat) : nat :=
  Z.to_nat (nth (i + 1) nf 0%Z) * Z.to_nat (nth i nf 0%Z).

Lemma MLPBayesianModel_build_draws (nf : list Z) (indices : list nat) :
  forall (g g' : G) (layers : list module),
    MLPBayesianModel_build nf indices g = Ok (layers, g') ->
    g' = snd (randn_list (list_sum (map (weight_entries nf) indices)) g).
Proof.
  induction indices as [|i rest IH]; intros g g' layers;
    cbn [MLPBayesianModel_build map list_sum fold_right].
  - unfold ret. intros E; inversion E; reflexivity.
  - unfold bind, ret.
    pose proof (BnnLayer_init_cases (nth i nf 0%Z) (nth (i + 1) nf 0%Z) g)
      as Hc.
    assert (Hg : forall l g1,
               BnnLayer_init (nth i nf 0%Z) (nth (i + 1) nf 0%Z) g
               = Ok (l, g1) ->
               g1 = snd (randn_list (weight_entries nf i) g)).
    { intros l g1 E. rewrite E in Hc. destruct Hc as (H0 & H1 & _).
      rewrite BnnLayer_init_nonneg in E by auto. inversion E.
      apply initial_weight_mu_draws. }
    destruct (i <? length nf - 2);
      (destruct (BnnLayer_init _ _ g) as [[l g1]|e]; [|discriminate]);
      (destruct (MLPBayesianModel_build nf rest g1) as [[ls g2]|e] eqn:E2;
       [|discriminate]);
      intros E; inversion E; subst;
      rewrite randn_list_app; cbn [snd];
      rewrite <- (Hg l g1 eq_refl); eapply IH; eauto.
Qed.

(** X10.  Construction consumes one draw of the generator per weight entry
    and nothing else: a [BayesianModel] leaves the generator where
    [hidden * input + output * hidden] draws lead, a variable-depth network
    of either kind where the sum of [sizes[i+1] * sizes[i]] over its layers
    leads.  Biases, log-scales, batch normalisations and dropouts draw
    nothing. *)
Theorem init_draws_one_per_weight (g : G) :
  (forall (a b c : Z) (m : BayesianModel) (g' : G),
     BayesianModel_init a b c g = Ok (m, g') ->
     g' = snd (randn_list (Z.to_nat b * Z.to_nat a
                           + Z.to_nat c * Z.to_nat b) g)) /\
  (forall (sizes : list Z) (m : MLPBayesianModel) (g' : G),
     MLPBayesianModel_init sizes g = Ok (m, g') ->
     g' = snd (randn_list
                 (list_sum (map (weight_entries sizes)
                              (seq 0 (length sizes - 1)))) g)) /\
  (forall (sizes : list Z) (d : DropoutBayesianModel) (g' : G),
     DropoutBayesianModel_init sizes g = Ok (d, g') ->
     g' = snd (randn_list
                 (list_sum (map (weight_entries sizes)
                              (seq 0 (length sizes - 1)))) g)).
Proof.
  assert (Hmlp : forall (sizes : list Z) (m : MLPBayesianModel) (g' : G),
             MLPBayesianModel_init sizes g = Ok (m, g') ->
             g' = snd (randn_list
                         (list_sum (map (weight_entries sizes)
                                      (seq 0 (length sizes - 1)))) g)).
  { intros sizes m g' Em.
    destruct (Nat.lt_ge_cases (length sizes) 3) as [Hlt|Hge].
    { rewrite MLPBayesianModel_init_short in Em by auto. discriminate. }
    rewrite MLPBayesianModel_init_unfold in Em by auto.
    destruct (MLPBayesianModel_build sizes _ g) as [[ls g2]|e] eqn:Eb;
      [|discriminate].
    inversion Em; subst. eapply MLPBayesianModel_build_draws; eauto. }
  split; [|split].
  - intros a b c m g' Em. unfold BayesianModel_init, bind, ret in Em.
    pose proof (BnnLayer_init_cases a b g) as H1.
    destruct (BnnLayer_init a b g) as [[l1 g1]|e] eqn:E1; [|discriminate].
    pose proof (BnnLayer_init_cases b c g1) as H2.
    destruct (BnnLayer_init b c g1) as [[l2 g2]|e] eqn:E2; [|discriminate].
    inversion Em; subst.
    rewrite BnnLayer_init_nonneg in E1, E2 by tauto.
    inversion E1 as [[El1 Eg1]]. inversion E2 as [[El2 Eg2]].
    rewrite randn_list_app. cbn [snd].
    rewrite initial_weight_mu_draws, <- Eg1.
    now rewrite initial_weight_mu_draws.
  - exact Hmlp.
  - intros sizes d g' Ed.
    destruct (Nat.lt_ge_cases (length sizes) 3) as [Hlt|Hge].
    { rewrite DropoutBayesianModel_init_short in Ed by auto. discriminate. }
    rewrite DropoutBayesianModel_init_unfold in Ed by auto.
    pose proof (builds_agree sizes (seq 0 (length sizes - 1)) g) as Ha.
    destruct (DropoutBayesianModel_build sizes _ g) as [[ls g2]|e];
      [|discriminate].
    inversion Ed; subst.
    destruct (MLPBayesianModel_build sizes _ g) as [[ms g1]|e] eqn:Eb;
      [|contradiction].
    destruct Ha as (<- & _). eapply MLPBayesianModel_build_draws; eauto.
Qed.

Lemma mlp_children_count (nf : list Z) (k : nat) :
  forall (s j : nat) (layers : list module),
    Forall2 (mlp_stage_at nf) (seq s k) layers ->
    length (children_named_parameters j layers) = 4 * k.
Proof.
  induction k as [|k IH]; intros s j layers HF.
  - inversion HF; subst. reflexivity.
  - cbn [seq] in HF. inversion HF as [|i st is' rest Hst HF']; subst.
    destruct Hst as (l & _ & _ & ->).
    cbn [children_named_parameters]. rewrite length_app, prefixed_length.
    rewrite (IH (S s) (S j) rest HF').
    unfold mlp_stage. destruct (s <? length nf - 2); cbn; lia.
Qed.

Lemma dropout_children_count (nf : list Z) (k : nat) :
  forall (s j : nat) (layers : list module),
    s + k = length nf - 1 ->
    Forall2 (dropout_stage_at nf) (seq s k) layers ->
    length (children_named_parameters j layers)
    + 2 * (if k =? 0 then 0 else 1) = 6 * k.
Proof.
  induction k as [|k IH]; intros s j layers Hs HF.
  - inversion HF; subst. reflexivity.
  - cbn [seq] in HF. inversion HF as [|i st is' rest Hst HF']; subst.
    destruct Hst as (l & _ & _ & ->).
    cbn [children_named_parameters]. rewrite length_app, prefixed_length.
    specialize (IH (S s) (S j) rest ltac:(lia) HF').
    unfold dropout_stage.
    destruct (Nat.ltb_spec s (length nf - 2)) as [Hlt|Hge].
    + destruct k as [|k]; [lia|]. cbn in *. lia.
    + destruct k as [|k]; [|lia]. cbn in *. lia.
Qed.

(** X11.  What an optimizer is handed: a constructed [BayesianModel] lists 8
    tensors holding [2 * (hidden * input + hidden) + 2 * (output * hidden +
    output)] scalars; a constructed [MLPBayesianModel] of [N] sizes lists
    [4 * (N - 1)] tensors, four per layer; a constructed
    [DropoutBayesianModel] lists two more for each of its [N - 2] batch
    normalisations. *)
Theorem named_parameters_counts (g : G) :
  (forall (a b c : Z) (m : BayesianModel) (g' : G),
     BayesianModel_init a b c g = Ok (m, g') ->
     length (BayesianModel_named_parameters m) = 8 /\
     list_sum (map (fun nt => numel (shape (snd nt)))
                 (BayesianModel_named_parameters m))
     = 2 * (Z.to_nat b * Z.to_nat a + Z.to_nat b)
       + 2 * (Z.to_nat c * Z.to_nat b + Z.to_nat c)) /\
  (forall (sizes : list Z) (m : MLPBayesianModel) (g' : G),
     MLPBayesianModel_init sizes g = Ok (m, g') ->
     length (MLPBayesianModel_named_parameters m)
     = 4 * (length sizes - 1)) /\
  (forall (sizes : list Z) (d : DropoutBayesianModel) (g' : G),
     DropoutBayesianModel_init sizes g = Ok (d, g') ->
     length (DropoutBayesianModel_named_parameters d)
     = 4 * (length sizes - 1) + 2 * (length sizes - 2)).
Proof.
  split; [|split].
  - intros a b c m g' Em.
    destruct (BayesianModel_init_inv a b c g g' m Em)
      as [((W1 & I1 & O1) & _) ((W2 & I2 & O2) & _)].
    split; [reflexivity|].
    destruct W1 as (_ & _ & A1 & A2 & A3 & A4 & _).
    destruct W2 as (_ & _ & B1 & B2 & B3 & B4 & _).
    cbn. rewrite A1, A2, A3, A4, B1, B2, B3, B4, I1, O1, I2, O2.
    cbn. lia.
  - intros sizes m g' Em.
    destruct (Nat.lt_ge_cases (length sizes) 3) as [Hlt|Hge].
    { rewrite MLPBayesianModel_init_short in Em by auto. discriminate. }
    rewrite MLPBayesianModel_init_unfold in Em by auto.
    destruct (MLPBayesianModel_build sizes _ g) as [[ls g2]|e] eqn:Eb;
      [|discriminate].
    inversion Em; subst. apply MLPBayesianModel_build_inv in Eb.
    rewrite MLPBayesianModel_named_parameters_eq. cbn [mlp_layers].
    rewrite prefixed_length. eapply mlp_children_count; eauto.
  - intros sizes d g' Ed.
    destruct (Nat.lt_ge_cases (length sizes) 3) as [Hlt|Hge].
    { rewrite DropoutBayesianModel_init_short in Ed by auto. discriminate. }
    rewrite DropoutBayesianModel_init_unfold in Ed by auto.
    destruct (DropoutBayesianModel_build sizes _ g) as [[ls g2]|e] eqn:Eb;
      [|discriminate].
    inversion Ed; subst. apply DropoutBayesianModel_build_inv in Eb.
    rewrite DropoutBayesianModel_named_parameters_eq. cbn [dropout_layers].
    rewrite prefixed_length.
    pose proof (dropout_children_count sizes (length sizes - 1) 0 0 ls
                  eq_refl Eb) as Hc.
    destruct (Nat.eqb_spec (length sizes - 1) 0); lia.
Qed.

(** ** Constructed networks, for use on concrete sizes *)

Lemma variable_depth_init_ok (sizes : list Z) (g : G) :
  3 <= length sizes ->
  Forall (fun z => (0 <= z)%Z) sizes ->
  (exists m g', MLPBayesianModel_init sizes g = Ok (m, g')) /\
  (exists d g', DropoutBayesianModel_init sizes g = Ok (d, g')).
Proof.
  intros Hn Hnf. split.
  - rewrite MLPBayesianModel_init_unfold by auto.
    destruct (MLPBayesianModel_build_ok sizes Hnf (length sizes - 1) 0 g)
      as (ls & g' & -> & _). eauto.
  - rewrite DropoutBayesianModel_init_unfold by auto.
    destruct (DropoutBayesianModel_build_ok sizes Hnf (length sizes - 1) 0 g)
      as (ls & g' & -> & _). eauto.
Qed.

End Model.

(** * The laws hold of the real numbers, and the statements on concrete inputs *)

Module Concrete.

Import Reals Qreals Lra.
Local Open Scope nat_scope.

Lemma Q2R_zero : Q2R 0 = 0%R.
Proof. unfold Q2R. cbn. lra. Qed.

Lemma Scalar_R_exp_m5_pos : sltb szero (sexp (sofQ (-5))) = true.
Proof.
  cbn. unfold szero. cbn.
  destruct (Rlt_dec (Q2R 0) (exp (Q2R (-5)))) as [_|Hn]; [reflexivity|].
  exfalso. apply Hn. rewrite Q2R_zero. apply exp_pos.
Qed.




(** A layer of two inputs and one output, as constructed from the counter
    generator at 0, and two inputs: one row of two entries, one row of
    three. *)
Definition l0 : BnnLayer (A := R) := initial_layer (G := nat) 2 1 0%nat.

Definition x0 : tensor (A := R) := mkTensor [1; 2] [1%R; 2%R].


Lemma l0_wf : layer_wf l0.
Proof.
  unfold layer_wf, tensor_wf.
  repeat split; try reflexivity; lazy; discriminate.
Qed.





(** C6 at [BayesianModel(4, 8, 2)] and an input of sizes (5, 4). *)
Lemma BayesianModel_two_layers_witness :
  (0 < 4)%Z /\ (0 < 8)%Z /\ (0 < 2)%Z /\
  exists (m : BayesianModel (A := R)) (g1 : nat),
    BayesianModel_init 4 8 2 0%nat = Ok (m, g1) /\
    exists y g'',
      BayesianModel_forward m (mkTensor [5; 4] (repeat R1 20)) g1
      = Ok (y, g'') /\
      shape y = [5; 2].
Proof.
  split; [lia|]. split; [lia|]. split; [lia|].
  destruct (BayesianModel_two_layers (G := nat) Scalar_R_exp_m5_pos 4 8 2 0%nat
              ltac:(lia) ltac:(lia) ltac:(lia))
    as (m & g1 & Em & _ & _ & _ & _ & _ & _ & _ & Hf).
  exists m, g1. split; [exact Em|].
  destruct (Hf 5 (mkTensor [5; 4] (repeat R1 20)) g1 eq_refl)
    as (y & g'' & Ey & Sy & _).
  exists y, g''. split; assumption.
Defined.


(** C3, as stated, fails: a layer without outputs (or without inputs) is
    constructed although 0 is not a positive integer. *)
Lemma BnnLayer_init_zero_features_counterexample :
  ~ (0 < 0)%Z /\
  (exists l g', BnnLayer_init (A := R) (G := nat) 3 0 0%nat = Ok (l, g')) /\
  (exists l g', BnnLayer_init (A := R) (G := nat) 0 3 0%nat = Ok (l, g')).
Proof.
  split; [lia|]. split.
  - exists (initial_layer (G := nat) 3 0 0%nat), 0%nat. reflexivity.
  - exists (initial_layer (G := nat) 0 3 0%nat), 0%nat. reflexivity.
Qed.

(** C4, as stated, fails: the message of the configuration error is not the
    one the claim quotes, and three sizes one of which is negative do not
    construct a network. *)
Lemma variable_depth_init_counterexample :
  MLPBayesianModel_init (A := R) (G := nat) [4; 2]%Z 0%nat
  = Raise (ConfigurationError "at least need two values to create an mlp") /\
  MLPBayesianModel_init (A := R) (G := nat) [4; 2]%Z 0%nat
  <> Raise (ConfigurationError "at least two values to create an mlp") /\
  DropoutBayesianModel_init (A := R) (G := nat) [4; 2]%Z 0%nat
  <> Raise (ConfigurationError "at least two values to create an mlp") /\
  MLPBayesianModel_init (A := R) (G := nat) [4; -1; 2]%Z 0%nat
  = Raise InvalidDimension /\
  DropoutBayesianModel_init (A := R) (G := nat) [4; -1; 2]%Z 0%nat
  = Raise InvalidDimension.
Proof.
  repeat split; try reflexivity; cbn; discriminate.
Qed.

(** ** The further properties on concrete inputs *)


Definition sizes0 : list Z := [2; 2; 1]%Z.

Lemma sizes0_ok : 3 <= length sizes0 /\ Forall (fun z => (0 <= z)%Z) sizes0.
Proof. split; [cbn; lia | repeat constructor; lia]. Qed.


(** C9 at [DropoutBayesianModel(2, 2, 1)]: the ten names an optimizer is
    handed. *)
Lemma named_parameters_of_constructed_witness :
  exists (m : DropoutBayesianModel (A := R)) (g1 : nat),
    DropoutBayesianModel_init sizes0 0%nat = Ok (m, g1) /\
    map fst (DropoutBayesianModel_named_parameters m)
    = ["layers.0.0.weight_mu"; "layers.0.0.weight_std";
       "layers.0.0.bias_mu"; "layers.0.0.bias_std";
       "layers.0.1.weight"; "layers.0.1.bias";
       "layers.1.weight_mu"; "layers.1.weight_std";
       "layers.1.bias_mu"; "layers.1.bias_std"]%string /\
    NoDup (map fst (DropoutBayesianModel_named_parameters m)).
Proof.
  destruct (proj2 (variable_depth_init_ok (A := R) sizes0 0%nat
                     (proj1 sizes0_ok) (proj2 sizes0_ok)))
    as (m & g1 & Em).
  exists m, g1. split; [exact Em|].
  destruct (proj2 (proj2 (proj2 (named_parameters_of_constructed 0%nat)))
              sizes0 m g1 Em) as (Hl & Hb & -> & _ & Hn).
  split; [|exact Hn].
  apply Forall2_length in Hl, Hb.
  destruct (flat_map module_bnn_layers (dropout_layers m))
    as [|l1 [|l2 [|l3 r]]]; try discriminate.
  destruct (flat_map module_batch_norms (dropout_layers m))
    as [|bn [|bn2 r]]; try discriminate.
  reflexivity.
Defined.

(** X1 at [l0]. *)
Lemma BnnLayer_reset_parameters_reinitialises_witness :
  layer_wf l0 /\
  BnnLayer_reset_parameters l0 5%nat = BnnLayer_init (A := R) 2 1 5%nat.
Proof.
  split; [exact l0_wf|].
  exact (BnnLayer_reset_parameters_reinitialises l0 5%nat l0_wf).
Defined.


(** X4 at the sizes (2, 2, 1) and a batch of one row. *)
Lemma DropoutBayesianModel_forward_refused_witness :
  exists (m : DropoutBayesianModel (A := R)) (g1 : nat),
    DropoutBayesianModel_init sizes0 0%nat = Ok (m, g1) /\
    DropoutBayesianModel_forward m x0 g1 = Raise BatchSizeError.
Proof.
  destruct (proj2 (variable_depth_init_ok (A := R) sizes0 0%nat
                     (proj1 sizes0_ok) (proj2 sizes0_ok)))
    as (m & g1 & Em).
  exists m, g1. split; [exact Em|].
  exact (proj1 (DropoutBayesianModel_forward_refused Scalar_R_exp_m5_pos
                  sizes0 0%nat g1 m x0 g1 Em) eq_refl).
Defined.





(** ** Scalars whose exponential underflows

    The exponential of the floating-point numbers is 0 on arguments that
    are negative enough.  The rationals below have the exact arithmetic of
    the code's operators and an exponential that is 0 at -104 and below
    (where that of single precision is); on the other arguments used here
    its value is of no consequence. *)

#[global] Instance Scalar_Q_underflow : Scalar Q := {|
  sofQ := fun q => q;
  sadd := Qplus;
  ssub := Qminus;
  smul := Qmult;
  sdiv := Qdiv;
  sexp := fun q => if Qle_bool q (-104) then 0%Q else 1%Q;
  ssqrt := fun q => q;
  sltb := fun x y => negb (Qle_bool y x)
|}.

#[global] Instance Generator_Q_counter : Generator Q nat := {|
  randn := fun n => (inject_Z (Z.of_nat n), S n);
  bernoulli := fun _ n => (Nat.even n, S n)
|}.







End Concrete.
